(** * go-epub-grep: a shallow embedding of the search-and-extraction engine

    The development follows the layout of package [epubproc]:

    - [GoInt]       Go's [int] (64 bits, silent wrap-around);
    - [RegexCache]  [regex_cache.go]: the compiled-pattern cache;

    Library code the package calls (regexp, strings, bufio, x/net/html, time,
    strconv, conc) is either modelled here from its documented behaviour or
    taken as a parameter of the section that uses it; every such place says
    so.  Log calls have no effect on any result and are left out. *)

From Stdlib Require Import ZArith Lia List Bool String Ascii.
From stdpp Require Import base option list strings gmap fin_maps.
Import ListNotations.
Local Open Scope Z_scope.

(* ===================================================================== *)
(** * Go's [int] *)
(* ===================================================================== *)

Module GoInt.

(** [int] is 64 bits wide on the targets the Dockerfile builds for. *)
Definition intSize : Z := 64.
Definition maxInt : Z := 2 ^ (intSize - 1) - 1.
Definition minInt : Z := - 2 ^ (intSize - 1).

(** Two's-complement reduction of a mathematical integer to an [int]. *)
Definition wrap (z : Z) : Z := (z - minInt) mod 2 ^ intSize + minInt.

Definition add (a b : Z) : Z := wrap (a + b).
Definition sub (a b : Z) : Z := wrap (a - b).

Definition inRange (z : Z) : Prop := minInt <= z <= maxInt.

Lemma maxInt_val : maxInt = 9223372036854775807.
Proof. reflexivity. Qed.

Lemma minInt_val : minInt = -9223372036854775808.
Proof. reflexivity. Qed.

Lemma wrap_unfold z :
  wrap z = (z + 9223372036854775808) mod 18446744073709551616 - 9223372036854775808.
Proof. unfold wrap. rewrite minInt_val. reflexivity. Qed.

Lemma wrap_id z : inRange z -> wrap z = z.
Proof.
  unfold inRange. rewrite maxInt_val, minInt_val, wrap_unfold. intros H.
  rewrite Z.mod_small by lia. lia.
Qed.

Lemma wrap_inRange z : inRange (wrap z).
Proof.
  unfold inRange. rewrite maxInt_val, minInt_val, wrap_unfold.
  pose proof (Z.mod_pos_bound (z + 9223372036854775808) 18446744073709551616).
  lia.
Qed.

Lemma add_small a b : inRange (a + b) -> add a b = a + b.
Proof. apply wrap_id. Qed.

Lemma sub_small a b : inRange (a - b) -> sub a b = a - b.
Proof. apply wrap_id. Qed.


End GoInt.

(* ===================================================================== *)
(** * regex_cache.go *)
(* ===================================================================== *)

Module RegexCache.
Import GoInt.

(** A [*regexp.Regexp].  [re_addr] is the address of the heap object, so two
    values are the same object exactly when they are equal; [re_expr] is the
    source text it was compiled from. *)
Record Regexp := mkRegexp { re_addr : nat; re_expr : string }.

(** [type regexCache struct]; the mutex is left out, calls are sequential. *)
Record regexCache := mkCache {
  cache : gmap string Regexp;
  maxSize : Z;
  accesses : gmap string Z
}.

Definition newRegexCache (maxSize : Z) : regexCache := mkCache ∅ maxSize ∅.

(** Go visits the entries of a map in an unspecified order that may change
    from one [range] statement to the next.  A [RangeOrder] is the order one
    [range] happens to use: any rearrangement of the entries. *)
Record RangeOrder := mkOrder {
  rangeOf : list (string * Z) -> list (string * Z);
  rangeOf_perm : forall l, Permutation (rangeOf l) l
}.

Definition idOrder : RangeOrder := mkOrder (fun l => l) (fun l => Permutation_refl l).

Definition revOrder : RangeOrder :=
  mkOrder (@rev _) (fun l => Permutation_sym (Permutation_rev l)).

(** The state [get] works on: the next free heap address and the cache. *)
Definition State : Type := nat * regexCache.

Section WithCompiler.

(** [regexp.Compile] of the standard library, as far as the cache sees it:
    the syntax error of an expression, [None] when it compiles. *)
Variable syntaxError : string -> option string.

Definition Compile (next : nat) (expr : string) : (Regexp + string) * nat :=
  match syntaxError expr with
  | Some msg => (inr msg, next)
  | None => (inl (mkRegexp next expr), S next)
  end.

(** [rc.accesses[pattern]++]; a missing key reads as 0. *)
Definition bump (pattern : string) (acc : gmap string Z) : gmap string Z :=
  <[pattern := add (default 0 (acc !! pattern)) 1]> acc.

(** The loop [for p, count := range rc.accesses], started from
    [lruPattern = ""] and [minAccess = maxInt]. *)
Definition lruStep (st kv : string * Z) : string * Z :=
  if snd kv <? snd st then kv else st.

Definition lruScan (kvs : list (string * Z)) : string * Z :=
  fold_left lruStep kvs (""%string, maxInt).

Definition evict (ord : RangeOrder) (rc : regexCache) : regexCache :=
  let lruPattern := fst (lruScan (rangeOf ord (map_to_list (accesses rc)))) in
  mkCache (delete lruPattern (cache rc)) (maxSize rc) (delete lruPattern (accesses rc)).

Definition hit (pattern : string) (re : Regexp) (st : State) : (Regexp + string) * State :=
  (inl re, (fst st, mkCache (cache (snd st)) (maxSize (snd st))
                            (bump pattern (accesses (snd st))))).

Definition get (ord : RangeOrder) (pattern : string) (st : State)
  : (Regexp + string) * State :=
  let rc := snd st in
  match cache rc !! pattern with
  | Some re => hit pattern re st
  | None =>
      (* the second look-up, under the write lock *)
      match cache rc !! pattern with
      | Some re => hit pattern re st
      | None =>
          match Compile (fst st) pattern with
          | (inr err, next) => (inr err, (next, rc))
          | (inl re, next) =>
              let rc1 := if Z.of_nat (size (cache rc)) >=? maxSize rc
                         then evict ord rc else rc in
              (inl re, (next, mkCache (<[pattern := re]> (cache rc1)) (maxSize rc1)
                                      (<[pattern := 1]> (accesses rc1))))
          end
      end
  end.

(** A sequence of sequential calls; each carries the order its eviction loop
    would see. *)
Definition Call : Type := RangeOrder * string.

Definition step (st : State) (c : Call) : State := snd (get (fst c) (snd c) st).

Definition run (calls : list Call) (st : State) : State := fold_left step calls st.

(** ** The eviction loop *)





(** ** One call *)




(** ** The invariant of the cache *)









(** ** Asking for the same pattern over and over *)


End WithCompiler.

(** A compiler for the examples: only the expression "(" is malformed. *)
Definition onlyParenFails (expr : string) : option string :=
  if String.eqb expr "(" then Some "missing closing )"%string else None.




(** ** The claims about the cache *)


(** The calls of [TestRegexCacheLRUEviction]: three patterns fill a cache of
    size three, two are asked for again. *)
Definition lruCalls : list Call :=
  map (fun p => (idOrder, p)) ["pattern1"; "pattern2"; "pattern3"; "pattern1"; "pattern2"]%string.

Definition lruState : State := run onlyParenFails lruCalls (0%nat, newRegexCache 3).



(** What the test observes: pattern3, the least used, is gone after pattern4
    arrives, and the other three are cached. *)
Example lru_eviction_test :
  let rc := snd (snd (get onlyParenFails revOrder "pattern4" lruState)) in
  cache rc !! "pattern3"%string = None /\
  cache rc !! "pattern1"%string = Some (mkRegexp 0 "pattern1") /\
  cache rc !! "pattern2"%string = Some (mkRegexp 1 "pattern2") /\
  cache rc !! "pattern4"%string = Some (mkRegexp 3 "pattern4") /\
  accesses rc !! "pattern1"%string = Some 2 /\
  accesses rc !! "pattern4"%string = Some 1.
Proof. vm_compute. repeat split. Qed.





End RegexCache.

(* ===================================================================== *)
(** * Go values used across the package *)
(* ===================================================================== *)

Module Go.
Import GoInt.

(** ** Outcomes

    A Go function call either returns, or panics (an out-of-range slice
    expression).  The loops of [bufio.Scanner] are modelled with a step budget;
    [OutOfFuel] is the outcome of exhausting it, shown below never to
    happen. *)
Inductive exec (A : Type) : Type :=
| Done (a : A)
| Panicked
| OutOfFuel.
Arguments Done {A} a.
Arguments Panicked {A}.
Arguments OutOfFuel {A}.

Definition bind {A B : Type} (c : exec A) (k : A -> exec B) : exec B :=
  match c with
  | Done a => k a
  | Panicked => Panicked
  | OutOfFuel => OutOfFuel
  end.

Definition mapExec {A B : Type} (f : A -> B) (c : exec A) : exec B :=
  bind c (fun a => Done (f a)).

(** ** Slices

    Of a slice the package observes its elements and whether it is [nil].
    [append] with nothing to add returns its first argument as it is. *)
Inductive slice (A : Type) : Type :=
| nilSlice
| mkSlice (items : list A).
Arguments nilSlice {A}.
Arguments mkSlice {A} items.

Definition elems {A : Type} (s : slice A) : list A :=
  match s with
  | nilSlice => []
  | mkSlice l => l
  end.

Definition isNil {A : Type} (s : slice A) : bool :=
  match s with
  | nilSlice => true
  | mkSlice _ => false
  end.

Definition len {A : Type} (l : list A) : Z := Z.of_nat (length l).

Definition append {A : Type} (s : slice A) (xs : list A) : slice A :=
  match xs with
  | [] => s
  | _ :: _ => mkSlice (elems s ++ xs)
  end.

(** [l[lo:hi]].  The run-time check is [0 <= lo <= hi <= cap(l)]; every use
    below has [hi <= len(l)], so the check against the length is the same. *)
Definition subslice {A : Type} (l : list A) (lo hi : Z) : exec (list A) :=
  if (0 <=? lo) && (lo <=? hi) && (hi <=? len l)
  then Done (take (Z.to_nat (hi - lo)) (drop (Z.to_nat lo) l))
  else Panicked.

Lemma elems_append {A : Type} (s : slice A) (xs : list A) :
  elems (append s xs) = elems s ++ xs.
Proof. destruct xs; cbn; [rewrite app_nil_r|]; reflexivity. Qed.

Lemma isNil_append_cons {A : Type} (s : slice A) (x : A) (xs : list A) :
  isNil (append s (x :: xs)) = false.
Proof. reflexivity. Qed.

(** ** Strings: a Go string is its sequence of bytes *)

Definition nl : string := String "010"%char EmptyString.

(** [strings.Join]. *)
Fixpoint Join (parts : list string) (sep : string) : string :=
  match parts with
  | [] => EmptyString
  | [x] => x
  | x :: rest => x +:+ sep +:+ Join rest sep
  end.


Definition HasSuffix (s suffix : string) : bool :=
  let n := String.length s in
  let m := String.length suffix in
  (m <=? n)%nat && String.eqb (String.substring (n - m) m s) suffix.

Fixpoint Contains (s substr : string) : bool :=
  String.prefix substr s ||
  match s with
  | EmptyString => false
  | String _ s' => Contains s' substr
  end.

(** ** [package epubproc]: the values the scanners produce *)

Record Match := mkMatch { Line : string; FileName : string }.

(** [context.Canceled] and [context.DeadlineExceeded]. *)
Inductive CtxErr := Canceled | DeadlineExceeded.

(** A [context.Context] as the code sees it: through polls of [ctx.Done()].
    [remaining = Some n]: the next [n] polls find the context live and every
    later one finds it done with [cause]; [None]: it is never done. *)
Record Context := mkContext { remaining : option nat; cause : CtxErr }.

Definition background : Context := mkContext None Canceled.
Definition cancelled (e : CtxErr) : Context := mkContext (Some 0%nat) e.

(** One poll: [select { case <-ctx.Done(): ... default: }]. *)
Definition poll (ctx : Context) : option CtxErr * Context :=
  match remaining ctx with
  | None => (None, ctx)
  | Some O => (Some (cause ctx), ctx)
  | Some (S n) => (None, mkContext (Some n) (cause ctx))
  end.

End Go.

(* ===================================================================== *)
(** * bufio.Scanner over an io.Reader (standard library, modelled) *)
(* ===================================================================== *)

Module Bufio.
Import GoInt Go.

Inductive ioErr :=
| EOF
| ErrTooLong
| ReadErr (msg : string).

(** An [io.Reader] over a finite stream.  Each [Read] delivers at least one
    byte while bytes are left: at most [1 + b] of them when [b] heads
    [bursts], as many as fit otherwise.  The end of the stream ([io.EOF], or
    the read error [failure]) is reported by a read of its own, or together
    with the last bytes when [eofWithData] is set; both occur among the
    readers of archive entries. *)
Record Reader := mkReader {
  data : list ascii;
  bursts : list nat;
  eofWithData : bool;
  failure : option string
}.

(** [strings.NewReader]. *)
Definition NewReader (s : string) : Reader :=
  mkReader (list_ascii_of_string s) [] false None.

Definition finalErr (r : Reader) : ioErr :=
  match failure r with
  | Some msg => ReadErr msg
  | None => EOF
  end.

(** [r.Read(p)] with [len(p) = room]: the bytes stored in [p], the error, and
    the reader afterwards. *)
Definition Read (r : Reader) (room : nat) : list ascii * option ioErr * Reader :=
  match data r with
  | [] => ([], Some (finalErr r), r)
  | _ :: _ =>
      let n := match bursts r with
               | [] => room
               | b :: _ => Nat.min room (S b)
               end in
      let rest := drop n (data r) in
      (take n (data r),
       if eofWithData r && bool_decide (rest = []) then Some (finalErr r) else None,
       mkReader rest (tail (bursts r)) (eofWithData r) (failure r))
  end.

(** The fields of [bufio.Scanner] that scanning with [ScanLines] uses.  [buf]
    is the contents of the current buffer, its length the buffer's length.
    A scanner starts on the array handed to [Buffer] and moves to an array of
    its own the first time it grows; [lent] is [None] before that, and
    afterwards holds the contents in which the first array was left. *)
Record Scanner := mkScanner {
  src : Reader;
  maxTokenSize : nat;
  token : option (list ascii);
  buf : list ascii;
  start : nat;
  end_ : nat;
  err : option ioErr;
  lent : option (list ascii)
}.

Definition MaxScanTokenSize : nat := 64 * 1024.
Definition startBufSize : nat := 4096.

Definition NewScanner (r : Reader) : Scanner :=
  mkScanner r MaxScanTokenSize None [] 0 0 None None.

(** [s.Buffer(arr[:0], max)] for an array with contents [arr]: the scanner's
    buffer is the whole array, [buf[0:cap(buf)]]. *)
Definition Buffer (s : Scanner) (arr : list ascii) (max : nat) : Scanner :=
  mkScanner (src s) max (token s) arr (start s) (end_ s) (err s) None.

(** The array handed to [Buffer], as the scanner leaves it. *)
Definition arrayAfter (s : Scanner) : list ascii :=
  match lent s with
  | Some arr => arr
  | None => buf s
  end.

Definition window (s : Scanner) : list ascii :=
  take (end_ s - start s) (drop (start s) (buf s)).

Definition lf : ascii := "010"%char.
Definition cr : ascii := "013"%char.

Fixpoint indexByte (bs : list ascii) (c : ascii) : option nat :=
  match bs with
  | [] => None
  | b :: bs' => if Ascii.eqb b c then Some O else option_map S (indexByte bs' c)
  end.

Definition dropCR (bs : list ascii) : list ascii :=
  match last bs with
  | Some c => if Ascii.eqb c cr then take (length bs - 1) bs else bs
  | None => bs
  end.

(** [bufio.ScanLines]: how far to advance, and the token if there is one. *)
Definition ScanLines (bs : list ascii) (atEOF : bool) : nat * option (list ascii) :=
  if atEOF && bool_decide (bs = []) then (O, None)
  else match indexByte bs lf with
       | Some i => (S i, Some (dropCR (take i bs)))
       | None => if atEOF then (length bs, Some (dropCR bs)) else (O, None)
       end.

Definition setErr (s : Scanner) (e : ioErr) : Scanner :=
  match err s with
  | None | Some EOF =>
      mkScanner (src s) (maxTokenSize s) (token s) (buf s) (start s) (end_ s) (Some e) (lent s)
  | Some _ => s
  end.

Definition advance (s : Scanner) (n : nat) (tok : option (list ascii)) : Scanner :=
  mkScanner (src s) (maxTokenSize s) tok (buf s) (start s + n) (end_ s) (err s) (lent s).

Definition shutDown (s : Scanner) : Scanner :=
  mkScanner (src s) (maxTokenSize s) (token s) (buf s) 0 0 (err s) (lent s).

(** [copy(s.buf, s.buf[s.start:s.end])] when space is needed. *)
Definition shift (s : Scanner) : Scanner :=
  if (0 <? start s)%nat &&
     ((end_ s =? length (buf s))%nat || (length (buf s) / 2 <? start s)%nat)
  then mkScanner (src s) (maxTokenSize s) (token s)
                 (window s ++ drop (end_ s - start s) (buf s))
                 0 (end_ s - start s) (err s) (lent s)
  else s.

(** A full buffer is replaced by one of twice the size, up to
    [maxTokenSize]; [None] when it cannot grow ([ErrTooLong]). *)
Definition grow (s : Scanner) : option Scanner :=
  if (end_ s =? length (buf s))%nat then
    if (maxTokenSize s <=? length (buf s))%nat || (maxInt / 2 <? len (buf s))
    then None
    else
      let doubled := (length (buf s) * 2)%nat in
      let newSize := Nat.min (if (doubled =? 0)%nat then startBufSize else doubled)
                             (maxTokenSize s) in
      Some (mkScanner (src s) (maxTokenSize s) (token s)
                      (window s ++ repeat zero (newSize - (end_ s - start s)))
                      0 (end_ s - start s) (err s)
                      (Some (arrayAfter s)))
  else Some s.

(** [s.r.Read(s.buf[s.end:len(s.buf)])]. *)
Definition fill (s : Scanner) : Scanner :=
  let '(chunk, e, r') := Read (src s) (length (buf s) - end_ s) in
  let s' := mkScanner r' (maxTokenSize s) (token s)
                      (take (end_ s) (buf s) ++ chunk ++ drop (end_ s + length chunk) (buf s))
                      (start s) (end_ s + length chunk) (err s) (lent s) in
  match e with
  | Some e => setErr s' e
  | None => s'
  end.

(** The loop of [Scan]. *)
Fixpoint scanLoop (fuel : nat) (s : Scanner) : exec (bool * Scanner) :=
  match fuel with
  | O => OutOfFuel
  | S fuel' =>
      let split :=
        if (start s <? end_ s)%nat || bool_decide (err s <> None)
        then Some (ScanLines (window s) (bool_decide (err s <> None)))
        else None in
      match split with
      | Some (n, Some tok) => Done (true, advance s n (Some tok))
      | _ =>
          let s1 := match split with
                    | Some (n, tok) => advance s n tok
                    | None => s
                    end in
          if bool_decide (err s1 <> None) then Done (false, shutDown s1)
          else match grow (shift s1) with
               | None => Done (false, setErr (shift s1) ErrTooLong)
               | Some s2 => scanLoop fuel' (fill s2)
               end
      end
  end.

(** Every turn of the loop that does not return takes a byte from the reader
    or records its end, so this budget is never used up ([Scan_returns]). *)
Definition scanFuel (s : Scanner) : nat := S (S (length (data (src s)))).

Definition Scan (s : Scanner) : exec (bool * Scanner) := scanLoop (scanFuel s) s.

(** [s.Text()]: a fresh string holding the token. *)
Definition Text (s : Scanner) : string :=
  string_of_list_ascii (default [] (token s)).

(** [s.Err()]. *)
Definition Err (s : Scanner) : option ioErr :=
  match err s with
  | Some EOF | None => None
  | Some e => Some e
  end.

(** ** Properties of the scanner *)

(** The window [buf[start:end]] lies inside the buffer. *)
Definition wfScanner (s : Scanner) : Prop :=
  (start s <= end_ s <= length (buf s))%nat.

(** The bytes still to be turned into tokens: those the reader has yet to
    deliver and those in the window. *)
Definition unread (s : Scanner) : nat :=
  (length (data (src s)) + (end_ s - start s))%nat.

Lemma window_length (s : Scanner) :
  wfScanner s -> length (window s) = (end_ s - start s)%nat.
Proof.
  unfold wfScanner, window. intros H. rewrite length_take, length_drop. lia.
Qed.

Lemma indexByte_lt (bs : list ascii) (c : ascii) (i : nat) :
  indexByte bs c = Some i -> (i < length bs)%nat.
Proof.
  revert i. induction bs as [|b bs IH]; intros i; cbn; [discriminate|].
  destruct (Ascii.eqb b c); [intros [= <-]; lia|].
  destruct (indexByte bs c) as [j|]; cbn; [|discriminate].
  intros [= <-]. specialize (IH j eq_refl). lia.
Qed.

(** A token comes with an advance of at least one byte, within the window. *)
Lemma ScanLines_token (bs : list ascii) (atEOF : bool) (n : nat) (tok : list ascii) :
  ScanLines bs atEOF = (n, Some tok) -> (1 <= n <= length bs)%nat.
Proof.
  unfold ScanLines.
  destruct (atEOF && bool_decide (bs = [])) eqn:E; [discriminate|].
  destruct (indexByte bs lf) as [i|] eqn:Ei.
  - intros [= <- _]. apply indexByte_lt in Ei. lia.
  - destruct atEOF; [|discriminate]. intros [= <- _].
    cbn in E. apply bool_decide_eq_false in E. destruct bs; [congruence|cbn; lia].
Qed.

Lemma ScanLines_no_token (bs : list ascii) (atEOF : bool) (n : nat) :
  ScanLines bs atEOF = (n, None) -> n = 0%nat /\ (atEOF = true -> bs = []).
Proof.
  unfold ScanLines.
  destruct (atEOF && bool_decide (bs = [])) eqn:E.
  - intros [= <-]. split; [reflexivity|]. intros ->. cbn in E.
    apply bool_decide_eq_true in E. exact E.
  - destruct (indexByte bs lf); [discriminate|].
    destruct atEOF; [discriminate|]. intros [= <-]. split; [reflexivity|discriminate].
Qed.

Lemma Read_chunk (r : Reader) (room : nat) :
  (length (fst (fst (Read r room))) <= room)%nat /\
  data r = fst (fst (Read r room)) ++ data (snd (Read r room)) /\
  (data r = [] -> snd (fst (Read r room)) <> None) /\
  ((1 <= room)%nat -> data r <> [] -> (1 <= length (fst (fst (Read r room))))%nat).
Proof.
  unfold Read. destruct (data r) as [|b bs] eqn:E; cbn [fst snd].
  - rewrite E. cbn. repeat split; try lia; try discriminate. congruence.
  - cbn [data]. split; [|split; [|split]].
    + rewrite length_take. destruct (bursts r); lia.
    + rewrite take_drop. reflexivity.
    + discriminate.
    + intros Hroom _. rewrite length_take. cbn [length]. destruct (bursts r); lia.
Qed.

Lemma setErr_fields (s : Scanner) (e : ioErr) :
  src (setErr s e) = src s /\ buf (setErr s e) = buf s /\
  start (setErr s e) = start s /\ end_ (setErr s e) = end_ s /\
  token (setErr s e) = token s /\ maxTokenSize (setErr s e) = maxTokenSize s /\
  lent (setErr s e) = lent s /\ err (setErr s e) <> None.
Proof.
  unfold setErr. destruct (err s) as [[]|] eqn:E; cbn; rewrite ?E; repeat split; discriminate.
Qed.

Lemma err_setErr (s : Scanner) (e : ioErr) :
  err (setErr s e) = match err s with
                     | None | Some EOF => Some e
                     | Some e' => Some e'
                     end.
Proof. unfold setErr. destruct (err s) as [[]|] eqn:E; cbn; rewrite ?E; reflexivity. Qed.

(** A bound on the reads that can still bring something: one for every byte
    the reader holds, and one for the error that ends the input. *)
Definition pendingReads (s : Scanner) : nat :=
  (length (data (src s)) + (match err s with Some _ => 0 | None => 1 end))%nat.

Lemma fill_facts (s : Scanner) :
  wfScanner s ->
  wfScanner (fill s) /\
  length (buf (fill s)) = length (buf s) /\
  start (fill s) = start s /\
  maxTokenSize (fill s) = maxTokenSize s /\
  unread (fill s) = unread s /\
  length (arrayAfter (fill s)) = length (arrayAfter s) /\
  ((end_ s < length (buf s))%nat -> err s = None ->
   (pendingReads (fill s) < pendingReads s)%nat).
Proof.
  intros Hwf. unfold wfScanner in Hwf. unfold fill.
  pose proof (Read_chunk (src s) (length (buf s) - end_ s)) as (Hlen & Hdata & Hend & Hone).
  destruct (Read (src s) (length (buf s) - end_ s)) as [[chunk e] r'] eqn:ER.
  cbn [fst snd] in *.
  set (s' := mkScanner r' _ _ _ _ _ _ _).
  assert (Hbuf : length (buf s') = length (buf s)).
  { subst s'. cbn. rewrite !length_app, length_take, length_drop. lia. }
  assert (H' : wfScanner s' /\ length (buf s') = length (buf s) /\ start s' = start s /\
               maxTokenSize s' = maxTokenSize s /\ unread s' = unread s).
  { split; [|split; [exact Hbuf|split; [reflexivity|split; [reflexivity|]]]].
    - unfold wfScanner. rewrite Hbuf. subst s'. cbn. lia.
    - unfold unread. subst s'. cbn. rewrite Hdata, length_app. lia. }
  destruct H' as (Hw & _ & Hst & Hm & Hun).
  assert (Harr : length (arrayAfter s') = length (arrayAfter s)).
  { unfold arrayAfter. subst s'. cbn. destruct (lent s); [reflexivity|exact Hbuf]. }
  assert (Hmeasure : (end_ s < length (buf s))%nat -> err s = None ->
            (length (data r') + (match e with Some _ => 0 | None => 1 end) < pendingReads s)%nat).
  { intros Hroom Herr. unfold pendingReads. rewrite Herr.
    destruct (data (src s)) as [|b bs] eqn:Ed.
    - destruct e; [|exfalso; apply Hend; reflexivity].
      assert (data r' = []) as ->.
      { symmetry in Hdata. apply app_eq_nil in Hdata. tauto. }
      cbn. lia.
    - assert (1 <= length chunk)%nat by (apply Hone; [lia|discriminate]).
      apply (f_equal (@length _)) in Hdata. rewrite length_app in Hdata. cbn [length] in *.
      destruct e; lia. }
  destruct e as [e|].
  - destruct (setErr_fields s' e) as (E1 & E2 & E3 & E4 & E5 & E6 & E7 & E8).
    unfold wfScanner, unread, arrayAfter in *. rewrite ?E1, ?E2, ?E3, ?E4, ?E6, ?E7.
    split; [exact Hw|]. split; [exact Hbuf|]. split; [exact Hst|].
    split; [exact Hm|]. split; [exact Hun|]. split; [exact Harr|].
    intros Hroom Herr. specialize (Hmeasure Hroom Herr).
    unfold pendingReads in *. rewrite E1.
    destruct (err (setErr s' e)); [|congruence]. subst s'. cbn in *. lia.
  - split; [exact Hw|]. split; [exact Hbuf|]. split; [exact Hst|].
    split; [exact Hm|]. split; [exact Hun|]. split; [exact Harr|].
    intros Hroom Herr. specialize (Hmeasure Hroom Herr).
    unfold pendingReads in *. subst s'. cbn in *. rewrite Herr in *. lia.
Qed.

Lemma arrayAfter_length_buf (s : Scanner) (b : list ascii) :
  length b = length (buf s) ->
  length (arrayAfter (mkScanner (src s) (maxTokenSize s) (token s) b (start s) (end_ s)
                                (err s) (lent s))) = length (arrayAfter s).
Proof. unfold arrayAfter. cbn. destruct (lent s); intros H; [reflexivity|exact H]. Qed.

Lemma shift_facts (s : Scanner) :
  wfScanner s ->
  wfScanner (shift s) /\
  window (shift s) = window s /\
  src (shift s) = src s /\ err (shift s) = err s /\
  maxTokenSize (shift s) = maxTokenSize s /\
  unread (shift s) = unread s /\
  length (arrayAfter (shift s)) = length (arrayAfter s).
Proof.
  intros Hwf. pose proof (window_length s Hwf) as Hwin.
  unfold wfScanner in Hwf. unfold shift.
  destruct (_ && _); [|repeat split; try tauto; lia].
  assert (Hlen : length (window s ++ drop (end_ s - start s) (buf s)) = length (buf s)).
  { rewrite length_app, Hwin, length_drop. lia. }
  split; [unfold wfScanner; cbn; rewrite Hlen; lia|].
  split; [unfold window at 1; cbn; rewrite Nat.sub_0_r, drop_0, take_app_length'; [reflexivity|symmetry; exact Hwin]|].
  split; [reflexivity|]. split; [reflexivity|]. split; [reflexivity|].
  split; [unfold unread; cbn; lia|].
  unfold arrayAfter. cbn. destruct (lent s); [reflexivity|exact Hlen].
Qed.

Lemma grow_facts (s s2 : Scanner) :
  wfScanner s -> grow s = Some s2 ->
  wfScanner s2 /\
  window s2 = window s /\
  src s2 = src s /\ err s2 = err s /\
  maxTokenSize s2 = maxTokenSize s /\
  unread s2 = unread s /\
  length (arrayAfter s2) = length (arrayAfter s) /\
  (end_ s2 < length (buf s2))%nat.
Proof.
  intros Hwf. pose proof (window_length s Hwf) as Hwin.
  unfold wfScanner in Hwf. unfold grow.
  destruct (Nat.eqb_spec (end_ s) (length (buf s))) as [Hfull|Hroom].
  - destruct (_ || _) eqn:Hmax; [discriminate|].
    apply orb_false_iff in Hmax. destruct Hmax as [Hmts _].
    apply Nat.leb_gt in Hmts.
    intros [= <-].
    set (newSize := Nat.min _ _).
    assert (Hnew : (length (buf s) < newSize)%nat).
    { subst newSize. destruct (Nat.eqb_spec (length (buf s) * 2) 0); unfold startBufSize; lia. }
    assert (Hlen : length (window s ++ repeat zero (newSize - (end_ s - start s))) = newSize).
    { rewrite length_app, Hwin, repeat_length. lia. }
    split; [unfold wfScanner; cbn; rewrite Hlen; lia|].
    split; [unfold window at 1; cbn; rewrite Nat.sub_0_r, drop_0, take_app_length'; [reflexivity|symmetry; exact Hwin]|].
    split; [reflexivity|]. split; [reflexivity|]. split; [reflexivity|].
    split; [unfold unread; cbn; lia|].
    split; [reflexivity|].
    cbn. rewrite Hlen. lia.
  - intros [= <-]. repeat split; try tauto; lia.
Qed.

Lemma grow_too_long (s : Scanner) :
  grow s = None -> (end_ s = length (buf s))%nat.
Proof.
  unfold grow. destruct (Nat.eqb_spec (end_ s) (length (buf s))); [tauto|discriminate].
Qed.

(** [Scan] returns: the budget is never used up. *)
Lemma scanLoop_returns (fuel : nat) (s : Scanner) :
  wfScanner s -> (pendingReads s < fuel)%nat ->
  exists b s', scanLoop fuel s = Done (b, s').
Proof.
  revert s. induction fuel as [|fuel IH]; intros s Hwf Hfuel; [lia|].
  cbn [scanLoop].
  destruct ((start s <? end_ s)%nat || bool_decide (err s <> None)) eqn:Htry.
  - destruct (ScanLines (window s) (bool_decide (err s <> None))) as [n [tok|]] eqn:Hsplit.
    + eauto.
    + destruct (ScanLines_no_token _ _ _ Hsplit) as [-> _].
      replace (advance s 0 None)
        with (mkScanner (src s) (maxTokenSize s) None (buf s) (start s) (end_ s) (err s) (lent s))
        by (unfold advance; rewrite Nat.add_0_r; reflexivity).
      set (s1 := mkScanner _ _ _ _ _ _ _ _).
      assert (Hwf1 : wfScanner s1) by exact Hwf.
      destruct (bool_decide (err s1 <> None)) eqn:Herr; [eauto|].
      apply bool_decide_eq_false in Herr.
      destruct (shift_facts s1 Hwf1) as (Hw2 & _ & Hsrc2 & Herr2 & _).
      destruct (grow (shift s1)) as [s2|] eqn:Hgrow; [|eauto].
      destruct (grow_facts _ _ Hw2 Hgrow) as (Hw3 & _ & Hsrc3 & Herr3 & _ & _ & _ & Hroom).
      destruct (fill_facts s2 Hw3) as (Hw4 & _ & _ & _ & _ & _ & Hdec).
      apply IH; [exact Hw4|].
      assert (err s2 = None).
      { rewrite Herr3, Herr2. destruct (err s1); [exfalso; apply Herr; discriminate|reflexivity]. }
      specialize (Hdec Hroom H).
      assert (pendingReads s2 = pendingReads s).
      { unfold pendingReads. rewrite Hsrc3, Hsrc2, H. subst s1. cbn in *.
        destruct (err s); [exfalso; apply Herr; discriminate|reflexivity]. }
      lia.
  - destruct (bool_decide (err s <> None)) eqn:Herr; [eauto|].
    apply bool_decide_eq_false in Herr.
    destruct (shift_facts s Hwf) as (Hw2 & _ & Hsrc2 & Herr2 & _).
    destruct (grow (shift s)) as [s2|] eqn:Hgrow; [|eauto].
    destruct (grow_facts _ _ Hw2 Hgrow) as (Hw3 & _ & Hsrc3 & Herr3 & _ & _ & _ & Hroom).
    destruct (fill_facts s2 Hw3) as (Hw4 & _ & _ & _ & _ & _ & Hdec).
    apply IH; [exact Hw4|].
    assert (err s2 = None).
    { rewrite Herr3, Herr2. destruct (err s); [exfalso; apply Herr; discriminate|reflexivity]. }
    specialize (Hdec Hroom H).
    assert (pendingReads s2 = pendingReads s).
    { unfold pendingReads. rewrite Hsrc3, Hsrc2, H.
      destruct (err s); [exfalso; apply Herr; discriminate|reflexivity]. }
    lia.
Qed.


(** What a call of [Scan] leaves behind. *)
Lemma scanLoop_result (fuel : nat) (s : Scanner) (b : bool) (s' : Scanner) :
  wfScanner s -> scanLoop fuel s = Done (b, s') ->
  wfScanner s' /\
  length (arrayAfter s') = length (arrayAfter s) /\
  (b = true -> (unread s' < unread s)%nat).
Proof.
  revert s. induction fuel as [|fuel IH]; intros s Hwf; [discriminate|].
  cbn [scanLoop].
  assert (Hrest : forall s1 : Scanner,
            wfScanner s1 -> unread s1 = unread s ->
            length (arrayAfter s1) = length (arrayAfter s) ->
            (if bool_decide (err s1 <> None) then Done (false, shutDown s1)
             else match grow (shift s1) with
                  | None => Done (false, setErr (shift s1) ErrTooLong)
                  | Some s2 => scanLoop fuel (fill s2)
                  end) = Done (b, s') ->
            wfScanner s' /\ length (arrayAfter s') = length (arrayAfter s) /\
            (b = true -> (unread s' < unread s)%nat)).
  { intros s1 Hwf1 Hun1 Harr1.
    destruct (bool_decide (err s1 <> None)).
    - intros [= <- <-]. split; [unfold wfScanner, shutDown; cbn; lia|].
      split; [|discriminate].
      rewrite <- Harr1. unfold arrayAfter, shutDown. cbn. reflexivity.
    - destruct (shift_facts s1 Hwf1) as (Hw2 & _ & _ & _ & _ & Hun2 & Harr2).
      destruct (grow (shift s1)) as [s2|] eqn:Hgrow.
      + destruct (grow_facts _ _ Hw2 Hgrow) as (Hw3 & _ & _ & _ & _ & Hun3 & Harr3 & _).
        destruct (fill_facts s2 Hw3) as (Hw4 & _ & _ & _ & Hun4 & Harr4 & _).
        intros Hrec. destruct (IH _ Hw4 Hrec) as (Hw' & Harr' & Hun').
        split; [exact Hw'|]. split; [congruence|].
        intros Hb. specialize (Hun' Hb). lia.
      + intros [= <- <-].
        destruct (setErr_fields (shift s1) ErrTooLong) as (E1 & E2 & E3 & E4 & E5 & E6 & E7 & E8).
        split; [unfold wfScanner in *; rewrite E2, E3, E4; exact Hw2|].
        split; [|discriminate].
        unfold arrayAfter in *. rewrite E2, E7. congruence. }
  destruct ((start s <? end_ s)%nat || bool_decide (err s <> None)) eqn:Htry.
  - destruct (ScanLines (window s) (bool_decide (err s <> None))) as [n [tok|]] eqn:Hsplit.
    + intros [= <- <-]. apply ScanLines_token in Hsplit.
      rewrite (window_length s Hwf) in Hsplit. unfold wfScanner in Hwf.
      split; [unfold wfScanner, advance; cbn; lia|].
      split; [reflexivity|].
      intros _. unfold unread, advance. cbn. lia.
    + destruct (ScanLines_no_token _ _ _ Hsplit) as [-> _].
      apply Hrest.
      * unfold wfScanner, advance in *. cbn. lia.
      * unfold unread, advance. cbn. rewrite Nat.add_0_r. reflexivity.
      * reflexivity.
  - apply Hrest; [exact Hwf|reflexivity|reflexivity].
Qed.

(** ** Two scanners that differ only in what lies outside their windows *)

Definition sameView (s1 s2 : Scanner) : Prop :=
  src s1 = src s2 /\ maxTokenSize s1 = maxTokenSize s2 /\ token s1 = token s2 /\
  start s1 = start s2 /\ end_ s1 = end_ s2 /\ err s1 = err s2 /\
  length (buf s1) = length (buf s2) /\ window s1 = window s2.

Lemma fill_window (s : Scanner) :
  wfScanner s ->
  window (fill s) = window s ++ fst (fst (Read (src s) (length (buf s) - end_ s))) /\
  end_ (fill s) = (end_ s + length (fst (fst (Read (src s) (length (buf s) - end_ s)))))%nat /\
  src (fill s) = snd (Read (src s) (length (buf s) - end_ s)) /\
  token (fill s) = token s /\
  err (fill s) = match snd (fst (Read (src s) (length (buf s) - end_ s))) with
                 | Some e => err (setErr s e)
                 | None => err s
                 end.
Proof.
  intros Hwf. unfold wfScanner in Hwf. unfold fill.
  destruct (Read (src s) (length (buf s) - end_ s)) as [[chunk e] r'].
  cbn [fst snd].
  set (s' := mkScanner r' _ _ _ _ _ _ _).
  assert (Hwin : window s' = window s ++ chunk).
  { unfold window. subst s'. cbn [buf start end_].
    rewrite drop_app_le by (rewrite length_take; lia).
    rewrite (take_drop_commute (buf s)).
    replace (start s + (end_ s - start s))%nat with (end_ s) by lia.
    replace (end_ s + length chunk - start s)%nat
      with (length (drop (start s) (take (end_ s) (buf s))) + length chunk)%nat
      by (rewrite length_drop, length_take; lia).
    rewrite take_app_add', take_app_length; reflexivity. }
  destruct e as [e|].
  - destruct (setErr_fields s' e) as (E1 & E2 & E3 & E4 & E5 & E6 & E7 & E8).
    unfold window in *. rewrite E1, E2, E3, E4, E5.
    split; [exact Hwin|]. split; [reflexivity|]. split; [reflexivity|]. split; [reflexivity|].
    rewrite !err_setErr. subst s'. reflexivity.
  - split; [exact Hwin|]. repeat split; reflexivity.
Qed.

Lemma sameView_fill (s1 s2 : Scanner) :
  wfScanner s1 -> wfScanner s2 -> sameView s1 s2 -> sameView (fill s1) (fill s2).
Proof.
  intros Hw1 Hw2 (Hsrc & Hm & Htok & Hst & Hen & Herr & Hlen & Hwin).
  destruct (fill_window s1 Hw1) as (W1 & N1 & S1 & T1 & R1).
  destruct (fill_window s2 Hw2) as (W2 & N2 & S2 & T2 & R2).
  destruct (fill_facts s1 Hw1) as (_ & L1 & St1 & M1 & _).
  destruct (fill_facts s2 Hw2) as (_ & L2 & St2 & M2 & _).
  rewrite <- Hsrc, <- Hlen, <- Hen in *.
  unfold sameView.
  rewrite W1, W2, N1, N2, S1, S2, T1, T2, R1, R2, L1, L2, St1, St2, M1, M2.
  repeat split; try congruence.
  destruct (snd (fst (Read (src s1) (length (buf s1) - end_ s1)))); [|exact Herr].
  rewrite !err_setErr, Herr. reflexivity.
Qed.

Lemma sameView_shift (s1 s2 : Scanner) :
  wfScanner s1 -> wfScanner s2 -> sameView s1 s2 -> sameView (shift s1) (shift s2).
Proof.
  intros Hw1 Hw2 (Hsrc & Hm & Htok & Hst & Hen & Herr & Hlen & Hwin).
  destruct (shift_facts s1 Hw1) as (_ & W1 & S1 & E1 & M1 & _).
  destruct (shift_facts s2 Hw2) as (_ & W2 & S2 & E2 & M2 & _).
  pose proof (window_length s1 Hw1) as L1. pose proof (window_length s2 Hw2) as L2.
  unfold sameView. rewrite W1, W2, S1, S2, E1, E2, M1, M2.
  split; [exact Hsrc|]. split; [exact Hm|].
  unfold shift. rewrite <- Hst, <- Hen, <- Hlen.
  destruct (_ && _); cbn [token start end_ buf]; [|repeat split; assumption].
  repeat split; try assumption.
  rewrite !length_app, !length_drop, L1, L2. lia.
Qed.

Lemma sameView_grow (s1 s2 : Scanner) :
  wfScanner s1 -> wfScanner s2 -> sameView s1 s2 ->
  match grow s1, grow s2 with
  | Some s1', Some s2' => sameView s1' s2'
  | None, None => True
  | _, _ => False
  end.
Proof.
  intros Hw1 Hw2 (Hsrc & Hm & Htok & Hst & Hen & Herr & Hlen & Hwin).
  pose proof (window_length s1 Hw1) as L1. pose proof (window_length s2 Hw2) as L2.
  destruct (grow s1) as [s1'|] eqn:G1; destruct (grow s2) as [s2'|] eqn:G2.
  - destruct (grow_facts _ _ Hw1 G1) as (_ & W1 & S1 & E1 & M1 & _).
    destruct (grow_facts _ _ Hw2 G2) as (_ & W2 & S2 & E2 & M2 & _).
    unfold sameView. rewrite W1, W2, S1, S2, E1, E2, M1, M2.
    split; [exact Hsrc|]. split; [exact Hm|].
    revert G1 G2. unfold grow, len. rewrite <- Hst, <- Hen, <- Hlen, <- Hm.
    destruct (end_ s1 =? length (buf s1))%nat.
    + destruct (_ || _); [discriminate|]. intros [= <-] [= <-]. cbn [token start end_ buf].
      repeat split; try assumption.
      rewrite !length_app, !repeat_length, L1, L2. lia.
    + intros [= <-] [= <-]. repeat split; assumption.
  - revert G1 G2. unfold grow, len. rewrite <- Hst, <- Hen, <- Hlen, <- Hm.
    destruct (end_ s1 =? length (buf s1))%nat; [|discriminate].
    destruct (_ || _); discriminate.
  - revert G1 G2. unfold grow, len. rewrite <- Hst, <- Hen, <- Hlen, <- Hm.
    destruct (end_ s1 =? length (buf s1))%nat; [|discriminate].
    destruct (_ || _); discriminate.
  - exact I.
Qed.

Lemma sameView_setErr (s1 s2 : Scanner) (e : ioErr) :
  sameView s1 s2 -> sameView (setErr s1 e) (setErr s2 e).
Proof.
  intros (Hsrc & Hm & Htok & Hst & Hen & Herr & Hlen & Hwin).
  destruct (setErr_fields s1 e) as (A1 & A2 & A3 & A4 & A5 & A6 & _).
  destruct (setErr_fields s2 e) as (B1 & B2 & B3 & B4 & B5 & B6 & _).
  unfold sameView, window. rewrite !err_setErr, A1, A2, A3, A4, A5, A6, B1, B2, B3, B4, B5, B6, Herr.
  repeat split; assumption.
Qed.

Lemma advance_window (s : Scanner) (n : nat) (tok : option (list ascii)) :
  window (advance s n tok) = drop n (window s).
Proof.
  unfold window, advance. cbn [buf start end_].
  rewrite skipn_firstn_comm, drop_drop.
  f_equal. lia.
Qed.

Lemma sameView_advance (s1 s2 : Scanner) (n : nat) (tok : option (list ascii)) :
  sameView s1 s2 -> sameView (advance s1 n tok) (advance s2 n tok).
Proof.
  intros (Hsrc & Hm & Htok & Hst & Hen & Herr & Hlen & Hwin).
  unfold sameView. rewrite !advance_window, Hwin.
  unfold advance. cbn. repeat split; congruence.
Qed.

Lemma sameView_shutDown (s1 s2 : Scanner) :
  sameView s1 s2 -> sameView (shutDown s1) (shutDown s2).
Proof.
  intros (Hsrc & Hm & Htok & Hst & Hen & Herr & Hlen & Hwin).
  unfold sameView, shutDown, window. cbn. repeat split; congruence.
Qed.

(** Scanning does the same in both. *)
Lemma scanLoop_sameView (fuel : nat) (s1 s2 : Scanner) :
  wfScanner s1 -> wfScanner s2 -> sameView s1 s2 ->
  match scanLoop fuel s1, scanLoop fuel s2 with
  | Done (b1, s1'), Done (b2, s2') => b1 = b2 /\ sameView s1' s2'
  | OutOfFuel, OutOfFuel => True
  | _, _ => False
  end.
Proof.
  revert s1 s2. induction fuel as [|fuel IH]; intros s1 s2 Hw1 Hw2 Hsim; [exact I|].
  cbn [scanLoop].
  assert (Hrest : forall t1 t2 : Scanner,
            wfScanner t1 -> wfScanner t2 -> sameView t1 t2 ->
            match
              (if bool_decide (err t1 <> None) then Done (false, shutDown t1)
               else match grow (shift t1) with
                    | None => Done (false, setErr (shift t1) ErrTooLong)
                    | Some t => scanLoop fuel (fill t)
                    end),
              (if bool_decide (err t2 <> None) then Done (false, shutDown t2)
               else match grow (shift t2) with
                    | None => Done (false, setErr (shift t2) ErrTooLong)
                    | Some t => scanLoop fuel (fill t)
                    end)
            with
            | Done (b1, s1'), Done (b2, s2') => b1 = b2 /\ sameView s1' s2'
            | OutOfFuel, OutOfFuel => True
            | _, _ => False
            end).
  { intros t1 t2 Ht1 Ht2 Hs.
    assert (Herr : err t1 = err t2) by (destruct Hs as (_ & _ & _ & _ & _ & H & _); exact H).
    rewrite <- Herr. destruct (bool_decide (err t1 <> None)).
    - split; [reflexivity|]. apply sameView_shutDown. exact Hs.
    - pose proof (sameView_shift t1 t2 Ht1 Ht2 Hs) as Hsh.
      destruct (shift_facts t1 Ht1) as (Hws1 & _).
      destruct (shift_facts t2 Ht2) as (Hws2 & _).
      pose proof (sameView_grow _ _ Hws1 Hws2 Hsh) as Hg.
      destruct (grow (shift t1)) as [g1|] eqn:G1; destruct (grow (shift t2)) as [g2|] eqn:G2;
        try contradiction.
      + destruct (grow_facts _ _ Hws1 G1) as (Hwg1 & _).
        destruct (grow_facts _ _ Hws2 G2) as (Hwg2 & _).
        destruct (fill_facts g1 Hwg1) as (Hwf1 & _).
        destruct (fill_facts g2 Hwg2) as (Hwf2 & _).
        apply IH; [exact Hwf1|exact Hwf2|].
        apply sameView_fill; assumption.
      + split; [reflexivity|]. apply sameView_setErr. exact Hsh. }
  destruct Hsim as (Hsrc & Hm & Htok & Hst & Hen & Herr & Hlen & Hwin).
  assert (Hsim : sameView s1 s2) by (repeat split; assumption).
  rewrite <- Hst, <- Hen, <- Herr, <- Hwin.
  destruct ((start s1 <? end_ s1)%nat || bool_decide (err s1 <> None)).
  - destruct (ScanLines (window s1) (bool_decide (err s1 <> None))) as [n [tok|]] eqn:Hsplit.
    + split; [reflexivity|]. apply sameView_advance. exact Hsim.
    + destruct (ScanLines_no_token _ _ _ Hsplit) as [-> _].
      apply Hrest.
      * unfold wfScanner, advance in *. cbn. lia.
      * unfold wfScanner, advance in *. cbn. lia.
      * apply sameView_advance. exact Hsim.
  - apply Hrest; assumption.
Qed.

End Bufio.

(* ===================================================================== *)
(** * html.Tokenizer (golang.org/x/net/html), as the scanner uses it *)
(* ===================================================================== *)

Module Html.

(** What one call of [z.Next()] yields, with the data [z.Text()] and
    [z.TagName()] give for it.  [ErrorToken] ends every stream. *)
Inductive Token :=
| TextToken (text : string)
| StartTagToken (tagName : string)
| EndTagToken (tagName : string)
| SelfClosingTagToken (tagName : string)
| CommentToken
| DoctypeToken.

(** A tokenizer is the tokens it has yet to yield before [ErrorToken]. *)
Record Tokenizer := mkTokenizer { pending : list Token }.

(** [z.Next()]; [None] stands for [ErrorToken]. *)
Definition Next (z : Tokenizer) : option Token * Tokenizer :=
  match pending z with
  | [] => (None, z)
  | t :: rest => (Some t, mkTokenizer rest)
  end.

End Html.

(* ===================================================================== *)
(** * The library functions the package is parametric in *)
(* ===================================================================== *)

(** Functions of the standard library and of x/net/html whose results depend
    on Unicode tables, on the regular-expression engine or on the HTML
    grammar.  The package is verified for every behaviour of them. *)
Class Library := mkLibrary {
  (** [regexp.MustCompile(expr).MatchString(s)] *)
  regexMatch : string -> string -> bool;
  (** [strings.TrimSpace] *)
  TrimSpace : string -> string;
  (** [strings.Fields] *)
  Fields : string -> list string;
  (** [strings.ToLower] *)
  ToLower : string -> string;
  (** [strings.EqualFold] *)
  EqualFold : string -> string -> bool;
  (** the tokens [html.NewTokenizer(r)] yields before [ErrorToken] *)
  htmlTokens : Bufio.Reader -> list Html.Token
}.

(* ===================================================================== *)
(** * pooled_scanner.go *)
(* ===================================================================== *)

Module Pooled.
Import Go Bufio.

(** A [[]byte]: the contents of its backing array (whose length is the
    capacity) and its length. *)
Record byteSlice := mkBytes { backing : list ascii; sliceLen : nat }.

(** [make([]byte, 0, n)]. *)
Definition makeBytes (n : nat) : byteSlice := mkBytes (repeat zero n) 0.

Record pooledScanner := mkPooledScanner {
  scanner : Scanner;
  buffer : byteSlice
}.

Definition newPooledScanner (r : Reader) : pooledScanner :=
  let buffer := makeBytes (16 * 1024) in
  mkPooledScanner (Buffer (NewScanner r) (backing buffer) (256 * 1024)) buffer.

(** [ps.scanner.Buffer(ps.buffer[:0], 256*1024)] on a new scanner: the new
    scanner works in the array of [ps.buffer], whatever an earlier scan left
    there. *)
Definition resetScanner (ps : pooledScanner) (r : Reader) : pooledScanner :=
  mkPooledScanner (Buffer (NewScanner r) (backing (buffer ps)) (256 * 1024)) (buffer ps).

(** The pooled object once its scanner has reached state [sc]: [ps.scanner]
    points to the scanner, and the array of [ps.buffer] is the one the
    scanner was given. *)
Definition afterScan (ps : pooledScanner) (sc : Scanner) : pooledScanner :=
  mkPooledScanner sc (mkBytes (arrayAfter sc) (sliceLen (buffer ps))).

Record pooledTokenizer := mkPooledTokenizer {
  tokenizer : Html.Tokenizer;
  textBuffer : byteSlice;
  tagBuffer : byteSlice;
  attrBuffer : byteSlice
}.

Section WithLibrary.
Context {lib : Library}.

Definition NewTokenizer (r : Reader) : Html.Tokenizer := Html.mkTokenizer (htmlTokens r).

Definition newPooledTokenizer (r : Reader) : pooledTokenizer :=
  mkPooledTokenizer (NewTokenizer r) (makeBytes 4096) (makeBytes 256) (makeBytes 1024).

Definition truncateBytes (b : byteSlice) : byteSlice := mkBytes (backing b) 0.

Definition resetTokenizer (pt : pooledTokenizer) (r : Reader) : pooledTokenizer :=
  mkPooledTokenizer (NewTokenizer r)
                    (truncateBytes (textBuffer pt))
                    (truncateBytes (tagBuffer pt))
                    (truncateBytes (attrBuffer pt)).

End WithLibrary.

(** A [sync.Pool]: the objects put back and not yet handed out again.  [Get]
    hands out one of them, or a new one when there is none. *)
Definition scannerPool : Type := list pooledScanner.
Definition tokenizerPool : Type := list pooledTokenizer.

Definition getScanner (pool : scannerPool) : pooledScanner * scannerPool :=
  match pool with
  | [] => (newPooledScanner (NewReader ""), [])
  | ps :: rest => (ps, rest)
  end.

Definition getTokenizer {lib : Library} (pool : tokenizerPool)
  : pooledTokenizer * tokenizerPool :=
  match pool with
  | [] => (newPooledTokenizer (NewReader ""), [])
  | pt :: rest => (pt, rest)
  end.

End Pooled.

(* ===================================================================== *)
(** * The content scanners: scanTextFile and scanHTMLFile *)
(* ===================================================================== *)

Module Scanners.
Import GoInt Go Bufio Pooled.
Export RegexCache(Regexp, mkRegexp, re_addr, re_expr).

Section WithLibrary.
Context {lib : Library}.

(** [pattern.MatchString(s)]. *)
Definition MatchString (pattern : Regexp) (s : string) : bool :=
  regexMatch (re_expr pattern) s.

(** ** scanTextFile *)

(** The most lines a stream can hold: every line but the last takes at least
    one byte.  It bounds the turns of the two scanning loops. *)
Definition linesFuel (sc : Scanner) : nat :=
  S (length (data (src sc)) + (end_ sc - start sc)).

(** [for scanner.Scan() { ... }] of the path without context. *)
Fixpoint fastLoop (pattern : Regexp) (fileName : string)
  (fuel : nat) (sc : Scanner) (matches : slice Match) : exec (Scanner * slice Match) :=
  match fuel with
  | O => OutOfFuel
  | S fuel' =>
      bind (Scan sc) (fun '(more, sc') =>
        if (more : bool) then
          let line := Text sc' in
          fastLoop pattern fileName fuel' sc'
            (if MatchString pattern line
             then append matches [mkMatch (TrimSpace line) fileName]
             else matches)
        else Done (sc', matches))
  end.

(** [for i := start; i < end; i++ { matchedLines[i] = true }]. *)
Definition markLines (lo hi : Z) (matchedLines : gset Z) : gset Z :=
  matchedLines ∪ list_to_set (seqZ lo (hi - lo)).

(** The first pass of the path with context. *)
Fixpoint firstPass (pattern : Regexp) (contextLines : Z)
  (fuel : nat) (sc : Scanner) (lines : list string) (matchedLines : gset Z) (lineNum : Z)
  : exec (Scanner * list string * gset Z) :=
  match fuel with
  | O => OutOfFuel
  | S fuel' =>
      bind (Scan sc) (fun '(more, sc') =>
        if (more : bool) then
          let line := Text sc' in
          let lines := lines ++ [line] in
          let matchedLines :=
            if MatchString pattern line
            then markLines (Z.max (sub lineNum contextLines) 0)
                           (Z.min (add (add lineNum contextLines) 1) (len lines))
                           matchedLines
            else matchedLines in
          firstPass pattern contextLines fuel' sc' lines matchedLines (add lineNum 1)
        else Done (sc', lines, matchedLines))
  end.

(** The second pass, [for i, line := range lines]; [rest] are the lines from
    index [i] on. *)
Fixpoint secondPass (pattern : Regexp) (fileName : string) (contextLines : Z)
  (lines : list string) (i : Z) (rest : list string) (matches : slice Match)
  : exec (slice Match) :=
  match rest with
  | [] => Done matches
  | line :: rest' =>
      if MatchString pattern line then
        let start := Z.max (sub i contextLines) 0 in
        let end_ := Z.min (add (add i contextLines) 1) (len lines) in
        bind (subslice lines start end_) (fun ctxLines =>
          let fullMatch := Join ctxLines nl in
          secondPass pattern fileName contextLines lines (i + 1) rest'
            (append matches [mkMatch (TrimSpace fullMatch) fileName]))
      else secondPass pattern fileName contextLines lines (i + 1) rest' matches
  end.

(** The body of [scanTextFile] once the scanner is set up: the result and the
    scanner as it is left. *)
Definition scanText (sc : Scanner) (pattern : Regexp) (fileName : string) (contextLines : Z)
  : exec (slice Match) * Scanner :=
  if contextLines =? 0 then
    match fastLoop pattern fileName (linesFuel sc) sc (mkSlice []) with
    | Done (sc', matches) =>
        (Done (match Err sc' with
               | Some _ => nilSlice
               | None => matches
               end), sc')
    | Panicked => (Panicked, sc)
    | OutOfFuel => (OutOfFuel, sc)
    end
  else
    match firstPass pattern contextLines (linesFuel sc) sc [] ∅ 0 with
    | Done (sc', lines, _) =>
        (match Err sc' with
         | Some _ => Done nilSlice
         | None => secondPass pattern fileName contextLines lines 0 lines (mkSlice [])
         end, sc')
    | Panicked => (Panicked, sc)
    | OutOfFuel => (OutOfFuel, sc)
    end.

(** [scanTextFile], with the pool it takes its scanner from and puts it back
    into (the deferred [Put] also runs when the function panics). *)
Definition scanTextFile (pool : scannerPool) (r : Reader) (pattern : Regexp)
  (fileName : string) (contextLines : Z) : exec (slice Match) * scannerPool :=
  let '(pooledSc, pool') := getScanner pool in
  let pooledSc := resetScanner pooledSc r in
  let '(result, sc') := scanText (scanner pooledSc) pattern fileName contextLines in
  (result, afterScan pooledSc sc' :: pool').

(** ** scanHTMLFile *)

Definition isBlockLevelTag (tagName : string) : bool :=
  bool_decide (tagName ∈ ["p"; "div"; "br"; "h1"; "h2"; "h3"; "h4"; "h5"; "h6";
                          "li"; "blockquote"; "hr"; "pre"; "tr"; "table"]%string).

(** [flushLine]: the new [textLines]; [currentLine] is reset by the caller. *)
Definition flushLine (textLines : list string) (currentLine : string) : list string :=
  let line := Join (Fields currentLine) " " in
  if String.eqb line "" then textLines else textLines ++ [line].

(** The tokenizing loop over the tokens [toks] the tokenizer has yet to
    yield.  The first component is [None] for the return of [nil] on
    cancellation, and otherwise the lines and the line in progress when
    [ErrorToken] arrives; the last is what the tokenizer has left. *)
Fixpoint tokenLoop (toks : list Html.Token) (ctx : Context) (tokenCount : Z)
  (textLines : list string) (currentLine : string)
  : option (list string * string) * Context * list Html.Token :=
  let '(stop, ctx) :=
    if Z.rem tokenCount 100 =? 0 then poll ctx else (None, ctx) in
  match stop with
  | Some _ => (None, ctx, toks)
  | None =>
      let tokenCount := add tokenCount 1 in
      match toks with
      | [] => (Some (textLines, currentLine), ctx, [])
      | tok :: toks' =>
          match tok with
          | Html.TextToken text =>
              tokenLoop toks' ctx tokenCount textLines (currentLine +:+ " " +:+ text)
          | Html.StartTagToken tagName
          | Html.EndTagToken tagName
          | Html.SelfClosingTagToken tagName =>
              if isBlockLevelTag tagName
              then tokenLoop toks' ctx tokenCount (flushLine textLines currentLine) ""
              else tokenLoop toks' ctx tokenCount textLines currentLine
          | Html.CommentToken | Html.DoctypeToken =>
              tokenLoop toks' ctx tokenCount textLines currentLine
          end
      end
  end.

(** The loop [for i, line := range textLines] that emits the matches. *)
Fixpoint emitMatches (pattern : Regexp) (fileName : string) (contextLines : Z)
  (textLines : list string) (i : Z) (rest : list string) (matches : slice Match)
  : exec (slice Match) :=
  match rest with
  | [] => Done matches
  | line :: rest' =>
      if MatchString pattern line then
        let start := Z.max (sub i contextLines) 0 in
        let end_ := Z.min (add (add i contextLines) 1) (len textLines) in
        bind (subslice textLines start end_) (fun ctxLines =>
          let fullMatch := Join ctxLines nl in
          emitMatches pattern fileName contextLines textLines (i + 1) rest'
            (append matches [mkMatch (TrimSpace fullMatch) fileName]))
      else emitMatches pattern fileName contextLines textLines (i + 1) rest' matches
  end.

(** The body of [scanHTMLFile] once the tokenizer is set up. *)
Definition scanHTML (ctx : Context) (z : Html.Tokenizer) (pattern : Regexp)
  (fileName : string) (contextLines : Z)
  : exec (slice Match) * Context * Html.Tokenizer :=
  match tokenLoop (Html.pending z) ctx 0 [] "" with
  | (None, ctx', unread) => (Done nilSlice, ctx', Html.mkTokenizer unread)
  | (Some (textLines, currentLine), ctx', unread) =>
      let textLines := flushLine textLines currentLine in
      (emitMatches pattern fileName contextLines textLines 0 textLines nilSlice,
       ctx', Html.mkTokenizer unread)
  end.

Definition scanHTMLFile (pool : tokenizerPool) (ctx : Context) (r : Reader)
  (pattern : Regexp) (fileName : string) (contextLines : Z)
  : exec (slice Match) * Context * tokenizerPool :=
  let '(pooledTok, pool') := getTokenizer pool in
  let pooledTok := resetTokenizer pooledTok r in
  let '(result, ctx', z') := scanHTML ctx (tokenizer pooledTok) pattern fileName contextLines in
  (result, ctx', mkPooledTokenizer z' (textBuffer pooledTok) (tagBuffer pooledTok)
                                   (attrBuffer pooledTok) :: pool').

(** ** The lines a scanner yields *)

(** The strings [scanner.Text()] returns over [for scanner.Scan() { ... }],
    and the scanner when [Scan] returns false. *)
Fixpoint scanAll (fuel : nat) (sc : Scanner) : exec (Scanner * list string) :=
  match fuel with
  | O => OutOfFuel
  | S fuel' =>
      bind (Scan sc) (fun '(more, sc') =>
        if (more : bool) then
          bind (scanAll fuel' sc') (fun '(sc'', ls) => Done (sc'', Text sc' :: ls))
        else Done (sc', []))
  end.

(** What the fast path does with one line. *)
Definition fastStep (pattern : Regexp) (fileName : string)
  (matches : slice Match) (line : string) : slice Match :=
  if MatchString pattern line
  then append matches [mkMatch (TrimSpace line) fileName]
  else matches.

Lemma fastLoop_scanAll (pattern : Regexp) (fileName : string)
  (fuel : nat) (sc : Scanner) (matches : slice Match) :
  fastLoop pattern fileName fuel sc matches =
    bind (scanAll fuel sc) (fun '(sc', ls) =>
      Done (sc', fold_left (fastStep pattern fileName) ls matches)).
Proof.
  revert sc matches. induction fuel as [|fuel IH]; intros sc matches; [reflexivity|].
  cbn [fastLoop scanAll]. destruct (Scan sc) as [[[|] sc']| |]; cbn [bind]; try reflexivity.
  rewrite IH. destruct (scanAll fuel sc') as [[sc'' ls]| |]; reflexivity.
Qed.

Lemma firstPass_scanAll (pattern : Regexp) (contextLines : Z)
  (fuel : nat) (sc : Scanner) (lines : list string) (matchedLines : gset Z) (lineNum : Z) :
  mapExec (fun r => (fst (fst r), snd (fst r)))
          (firstPass pattern contextLines fuel sc lines matchedLines lineNum) =
  mapExec (fun r => (fst r, lines ++ snd r)) (scanAll fuel sc).
Proof.
  revert sc lines matchedLines lineNum.
  induction fuel as [|fuel IH]; intros sc lines matchedLines lineNum; [reflexivity|].
  cbn [firstPass scanAll]. destruct (Scan sc) as [[[|] sc']| |]; cbn [bind mapExec]; try reflexivity.
  - rewrite IH.
    destruct (scanAll fuel sc') as [[sc'' ls]| |]; cbn; [|reflexivity|reflexivity].
    rewrite <- app_assoc. reflexivity.
  - cbn. rewrite app_nil_r. reflexivity.
Qed.

(** Scanning a whole stream ends within the budget [linesFuel] allows. *)
Lemma scanAll_returns (fuel : nat) (sc : Scanner) :
  wfScanner sc -> (unread sc < fuel)%nat ->
  exists sc' ls, scanAll fuel sc = Done (sc', ls) /\
                 wfScanner sc' /\ length (arrayAfter sc') = length (arrayAfter sc).
Proof.
  revert sc. induction fuel as [|fuel IH]; intros sc Hwf Hfuel; [lia|].
  cbn [scanAll]. unfold Scan.
  destruct (scanLoop_returns (scanFuel sc) sc Hwf) as (b & sc' & Hscan).
  { unfold pendingReads, scanFuel. destruct (err sc); lia. }
  rewrite Hscan. cbn [bind].
  destruct (scanLoop_result _ _ _ _ Hwf Hscan) as (Hwf' & Harr & Hless).
  destruct b.
  - destruct (IH sc' Hwf') as (sc'' & ls & Hall & Hwf'' & Harr''); [specialize (Hless eq_refl); lia|].
    rewrite Hall. cbn. exists sc'', (Text sc' :: ls).
    split; [reflexivity|]. split; [exact Hwf''|congruence].
  - exists sc', []. split; [reflexivity|]. split; assumption.
Qed.

Lemma scanAll_sameView (fuel : nat) (s1 s2 : Scanner) :
  wfScanner s1 -> wfScanner s2 -> sameView s1 s2 ->
  match scanAll fuel s1, scanAll fuel s2 with
  | Done (s1', l1), Done (s2', l2) => l1 = l2 /\ Err s1' = Err s2'
  | OutOfFuel, OutOfFuel => True
  | Panicked, Panicked => True
  | _, _ => False
  end.
Proof.
  revert s1 s2. induction fuel as [|fuel IH]; intros s1 s2 Hw1 Hw2 Hsim; [exact I|].
  cbn [scanAll]. unfold Scan.
  assert (Hfuel : scanFuel s1 = scanFuel s2).
  { unfold scanFuel. destruct Hsim as (-> & _). reflexivity. }
  rewrite <- Hfuel.
  pose proof (scanLoop_sameView (scanFuel s1) s1 s2 Hw1 Hw2 Hsim) as H.
  destruct (scanLoop (scanFuel s1) s1) as [[b1 s1']| |] eqn:E1;
    destruct (scanLoop (scanFuel s1) s2) as [[b2 s2']| |] eqn:E2; try contradiction;
    cbn [bind]; try exact I.
  destruct H as [<- Hsim'].
  destruct (scanLoop_result _ _ _ _ Hw1 E1) as (Hw1' & _).
  destruct (scanLoop_result _ _ _ _ Hw2 E2) as (Hw2' & _).
  destruct b1.
  - specialize (IH s1' s2' Hw1' Hw2' Hsim').
    destruct (scanAll fuel s1') as [[t1 l1]| |]; destruct (scanAll fuel s2') as [[t2 l2]| |];
      try contradiction; cbn [bind]; try exact I.
    destruct IH as [-> HE]. split; [|exact HE].
    f_equal. unfold Text. destruct Hsim' as (_ & _ & -> & _). reflexivity.
  - split; [reflexivity|]. unfold Err. destruct Hsim' as (_ & _ & _ & _ & _ & -> & _). reflexivity.
Qed.


(** ** The matches a line sequence calls for *)

(** The lines [[max(0, i-k), min(n, i+k+1))] of [lines]. *)
Definition contextWindow (k i : nat) (lines : list string) : list string :=
  take (Nat.min (length lines) (i + k + 1) - (i - k)) (drop (i - k) lines).

Definition matchAt (fileName : string) (k : nat) (lines : list string) (i : nat) : Match :=
  mkMatch (TrimSpace (Join (contextWindow k i lines) nl)) fileName.

Definition matchingFrom (pattern : Regexp) (lines : list string) (i0 n : nat) : list nat :=
  List.filter (fun i => MatchString pattern (nth i lines ""%string)) (seq i0 n).

(** One match for every index whose line matches, in line order. *)
Definition expectedMatches (pattern : Regexp) (fileName : string) (k : nat)
  (lines : list string) : list Match :=
  map (matchAt fileName k lines) (matchingFrom pattern lines 0 (length lines)).

Lemma append_append {A : Type} (s : slice A) (xs ys : list A) :
  append (append s xs) ys = append s (xs ++ ys).
Proof.
  destruct ys as [|y ys]; [rewrite app_nil_r; reflexivity|].
  destruct xs as [|x xs]; [reflexivity|].
  cbn. rewrite <- app_assoc. reflexivity.
Qed.

Lemma drop_cons_inv {A : Type} (d : A) (l : list A) (i : nat) (x : A) (rest : list A) :
  drop i l = x :: rest ->
  (i < length l)%nat /\ nth i l d = x /\ drop (S i) l = rest.
Proof.
  revert i. induction l as [|y l IH]; intros i H.
  - rewrite drop_nil in H. discriminate.
  - destruct i as [|i]; cbn in H.
    + injection H as -> ->. cbn. split; [lia|]. split; reflexivity.
    + destruct (IH i H) as (Hlt & Hnth & Hdrop). cbn. split; [lia|]. split; assumption.
Qed.

(** The bounds the two emitting loops compute, when nothing overflows. *)
Lemma window_bounds (k : Z) (lines : list string) (i : nat) :
  0 <= k -> k + len lines <= maxInt -> (i < length lines)%nat ->
  subslice lines (Z.max (sub (Z.of_nat i) k) 0)
                 (Z.min (add (add (Z.of_nat i) k) 1) (len lines))
  = Done (contextWindow (Z.to_nat k) i lines).
Proof.
  intros Hk Hmax Hi. unfold len in *. rewrite maxInt_val in Hmax.
  rewrite sub_small by (unfold inRange; rewrite maxInt_val, minInt_val; lia).
  rewrite (add_small (Z.of_nat i) k) by (unfold inRange; rewrite maxInt_val, minInt_val; lia).
  rewrite add_small by (unfold inRange; rewrite maxInt_val, minInt_val; lia).
  unfold subslice, len.
  destruct (Z.leb_spec 0 (Z.max (Z.of_nat i - k) 0)); [|lia].
  destruct (Z.leb_spec (Z.max (Z.of_nat i - k) 0)
                       (Z.min (Z.of_nat i + k + 1) (Z.of_nat (length lines)))); [|lia].
  destruct (Z.leb_spec (Z.min (Z.of_nat i + k + 1) (Z.of_nat (length lines)))
                       (Z.of_nat (length lines))); [|lia].
  cbn [andb]. unfold contextWindow. f_equal. f_equal; [|f_equal]; lia.
Qed.

Lemma secondPass_spec (pattern : Regexp) (fileName : string) (k : Z) (lines : list string) :
  0 <= k -> k + len lines <= maxInt ->
  forall (rest : list string) (i0 : nat) (acc : slice Match),
    drop i0 lines = rest ->
    secondPass pattern fileName k lines (Z.of_nat i0) rest acc =
      Done (append acc (map (matchAt fileName (Z.to_nat k) lines)
                            (matchingFrom pattern lines i0 (length rest)))).
Proof.
  intros Hk Hmax. induction rest as [|line rest IH]; intros i0 acc Hdrop.
  - reflexivity.
  - destruct (drop_cons_inv ""%string lines i0 line rest Hdrop) as (Hlt & Hnth & Hdrop').
    cbn [secondPass length]. unfold matchingFrom. cbn [seq List.filter]. rewrite Hnth.
    replace (Z.of_nat i0 + 1) with (Z.of_nat (S i0)) by lia.
    destruct (MatchString pattern line).
    + rewrite window_bounds by assumption. cbn [bind].
      rewrite (IH (S i0) _ Hdrop'). rewrite append_append. reflexivity.
    + apply (IH (S i0) _ Hdrop').
Qed.

Lemma contextWindow_0 (lines : list string) (i : nat) (line : string) (rest : list string) :
  drop i lines = line :: rest -> contextWindow 0 i lines = [line].
Proof.
  intros Hdrop. destruct (drop_cons_inv ""%string lines i line rest Hdrop) as (Hlt & _ & _).
  unfold contextWindow. rewrite Nat.sub_0_r, Hdrop.
  replace (Nat.min (length lines) (i + 0 + 1) - i)%nat with 1%nat by lia. reflexivity.
Qed.

Lemma fastStep_spec (pattern : Regexp) (fileName : string) (lines : list string) :
  forall (rest : list string) (i0 : nat) (acc : slice Match),
    drop i0 lines = rest ->
    fold_left (fastStep pattern fileName) rest acc =
      append acc (map (matchAt fileName 0 lines) (matchingFrom pattern lines i0 (length rest))).
Proof.
  induction rest as [|line rest IH]; intros i0 acc Hdrop.
  - reflexivity.
  - destruct (drop_cons_inv ""%string lines i0 line rest Hdrop) as (Hlt & Hnth & Hdrop').
    cbn [fold_left length]. unfold matchingFrom. cbn [seq List.filter]. rewrite Hnth.
    rewrite (IH (S i0) _ Hdrop'). unfold fastStep.
    destruct (MatchString pattern line); [|reflexivity].
    rewrite append_append. cbn [map app]. unfold matchAt at 2.
    rewrite (contextWindow_0 lines i0 line rest Hdrop). reflexivity.
Qed.

Lemma emitMatches_secondPass (pattern : Regexp) (fileName : string) (k : Z)
  (lines rest : list string) (i : Z) (acc : slice Match) :
  emitMatches pattern fileName k lines i rest acc =
  secondPass pattern fileName k lines i rest acc.
Proof.
  revert i acc. induction rest as [|line rest IH]; intros i acc; [reflexivity|].
  cbn [emitMatches secondPass]. destruct (MatchString pattern line); [|apply IH].
  destruct (subslice lines _ _); cbn [bind]; [apply IH|reflexivity|reflexivity].
Qed.


(** ** scanTextFile in terms of the lines scanned *)

Lemma scanText_lines (sc : Scanner) (pattern : Regexp) (fileName : string) (k : Z) :
  scanText sc pattern fileName k =
    match scanAll (linesFuel sc) sc with
    | Done (sc', ls) =>
        (match Err sc' with
         | Some _ => Done nilSlice
         | None =>
             if k =? 0 then Done (fold_left (fastStep pattern fileName) ls (mkSlice []))
             else secondPass pattern fileName k ls 0 ls (mkSlice [])
         end, sc')
    | Panicked => (Panicked, sc)
    | OutOfFuel => (OutOfFuel, sc)
    end.
Proof.
  unfold scanText. destruct (k =? 0).
  - rewrite fastLoop_scanAll.
    destruct (scanAll (linesFuel sc) sc) as [[sc' ls]| |]; cbn [bind]; [|reflexivity|reflexivity].
    destruct (Err sc'); reflexivity.
  - pose proof (firstPass_scanAll pattern k (linesFuel sc) sc [] ∅ 0) as H.
    destruct (firstPass pattern k (linesFuel sc) sc [] ∅ 0) as [[[sc1 l1] m1]| |];
      destruct (scanAll (linesFuel sc) sc) as [[sc2 l2]| |]; cbn in H; try discriminate;
      try reflexivity.
    injection H as -> ->. reflexivity.
Qed.

(** The scanner [scanTextFile] works with. *)
Definition textScanner (pool : scannerPool) (r : Reader) : Scanner :=
  scanner (resetScanner (fst (getScanner pool)) r).

(** The lines of a stream as [scanTextFile] reads them, and the error of the
    scan. *)
Definition linesOf (pool : scannerPool) (r : Reader) : exec (list string * option ioErr) :=
  mapExec (fun res => (snd res, Err (fst res)))
          (scanAll (linesFuel (textScanner pool r)) (textScanner pool r)).

Lemma textScanner_wf (pool : scannerPool) (r : Reader) : wfScanner (textScanner pool r).
Proof.
  unfold wfScanner, textScanner, resetScanner, Buffer.
  cbn [scanner start end_ buf NewScanner]. lia.
Qed.

(** Reading the lines always ends. *)
Lemma linesOf_returns (pool : scannerPool) (r : Reader) :
  exists ls e, linesOf pool r = Done (ls, e).
Proof.
  unfold linesOf.
  destruct (scanAll_returns (linesFuel (textScanner pool r)) (textScanner pool r))
    as (sc' & ls & H & _); [apply textScanner_wf | unfold linesFuel, unread; lia|].
  rewrite H. cbn. eauto.
Qed.

Lemma scanTextFile_result (pool : scannerPool) (r : Reader) (pattern : Regexp)
  (fileName : string) (k : Z) :
  fst (scanTextFile pool r pattern fileName k) =
    fst (scanText (textScanner pool r) pattern fileName k).
Proof.
  unfold scanTextFile, textScanner. destruct (getScanner pool) as [ps pool']. cbn [fst].
  destruct (scanText _ _ _ _). reflexivity.
Qed.

(** The text scanner emits exactly the matches the line sequence calls for,
    as long as the window arithmetic stays within [int]. *)
Lemma scanTextFile_expected (pool : scannerPool) (r : Reader) (pattern : Regexp)
  (fileName : string) (k : Z) (ls : list string) :
  linesOf pool r = Done (ls, None) ->
  0 <= k -> k + len ls <= maxInt ->
  fst (scanTextFile pool r pattern fileName k) =
    Done (mkSlice (expectedMatches pattern fileName (Z.to_nat k) ls)).
Proof.
  intros Hlines Hk Hmax. rewrite scanTextFile_result, scanText_lines.
  unfold linesOf in Hlines.
  destruct (scanAll _ _) as [[sc' ls']| |]; cbn in Hlines; try discriminate.
  injection Hlines as -> HE. rewrite HE. cbn [fst].
  destruct (Z.eqb_spec k 0) as [->|Hne].
  - rewrite (fastStep_spec pattern fileName ls ls 0 _ eq_refl).
    unfold expectedMatches. change (Z.to_nat 0) with 0%nat.
    destruct (map _ _); reflexivity.
  - rewrite (secondPass_spec pattern fileName k ls Hk Hmax ls 0 _ eq_refl).
    unfold expectedMatches.
    destruct (map _ _); reflexivity.
Qed.

(** A read error or an over-long line yields [nil]. *)
Lemma scanTextFile_scan_error (pool : scannerPool) (r : Reader) (pattern : Regexp)
  (fileName : string) (k : Z) (ls : list string) (e : ioErr) :
  linesOf pool r = Done (ls, Some e) ->
  fst (scanTextFile pool r pattern fileName k) = Done nilSlice.
Proof.
  intros Hlines. rewrite scanTextFile_result, scanText_lines.
  unfold linesOf in Hlines.
  destruct (scanAll _ _) as [[sc' ls']| |]; cbn in Hlines; try discriminate.
  injection Hlines as -> HE. rewrite HE. reflexivity.
Qed.

(** ** The pools *)

(** Every pooled scanner was made by [newPooledScanner]: its array has the
    capacity given there. *)
Definition poolOK (pool : scannerPool) : Prop :=
  Forall (fun ps => length (backing (buffer ps)) = (16 * 1024)%nat) pool.

Lemma getScanner_ok (pool : scannerPool) :
  poolOK pool ->
  length (backing (buffer (fst (getScanner pool)))) = (16 * 1024)%nat /\
  poolOK (snd (getScanner pool)).
Proof.
  intros H. destruct pool as [|ps rest]; cbn [getScanner fst snd].
  - split; [|constructor]. unfold newPooledScanner, makeBytes. cbn [buffer backing].
    apply repeat_length.
  - inversion H; subst. split; assumption.
Qed.

Lemma textScanner_sameView (pool1 pool2 : scannerPool) (r : Reader) :
  poolOK pool1 -> poolOK pool2 ->
  sameView (textScanner pool1 r) (textScanner pool2 r).
Proof.
  intros H1 H2.
  destruct (getScanner_ok pool1 H1) as [L1 _]. destruct (getScanner_ok pool2 H2) as [L2 _].
  unfold sameView, textScanner, resetScanner, Buffer, window.
  cbn [scanner src maxTokenSize token start end_ err buf NewScanner].
  rewrite L1, L2. repeat split; reflexivity.
Qed.


Lemma linesOf_pool_independent (pool1 pool2 : scannerPool) (r : Reader) :
  poolOK pool1 -> poolOK pool2 -> linesOf pool1 r = linesOf pool2 r.
Proof.
  intros H1 H2. unfold linesOf.
  pose proof (textScanner_sameView pool1 pool2 r H1 H2) as Hsim.
  assert (Hfuel : linesFuel (textScanner pool1 r) = linesFuel (textScanner pool2 r)).
  { unfold linesFuel. destruct Hsim as (-> & _ & _ & -> & -> & _). reflexivity. }
  rewrite <- Hfuel.
  pose proof (scanAll_sameView (linesFuel (textScanner pool1 r)) _ _
                (textScanner_wf pool1 r) (textScanner_wf pool2 r) Hsim) as H.
  destruct (scanAll _ (textScanner pool1 r)) as [[s1 l1]| |];
    destruct (scanAll _ (textScanner pool2 r)) as [[s2 l2]| |]; try contradiction;
    try reflexivity.
  destruct H as [-> HE]. unfold mapExec. cbn [bind fst snd]. rewrite HE. reflexivity.
Qed.

Lemma scanTextFile_pool_ok (pool : scannerPool) (r : Reader)
  (pattern : Regexp) (fileName : string) (k : Z) :
  poolOK pool -> poolOK (snd (scanTextFile pool r pattern fileName k)).
Proof.
  intros H. destruct (getScanner_ok pool H) as [Hlen Hrest].
  unfold scanTextFile. destruct (getScanner pool) as [ps pool'] eqn:Eg. cbn [fst snd] in *.
  pose proof (scanText_lines (scanner (resetScanner ps r)) pattern fileName k) as Hs.
  destruct (scanText (scanner (resetScanner ps r)) pattern fileName k) as [res sc'].
  cbn [snd]. constructor; [|exact Hrest].
  unfold afterScan. cbn [buffer backing].
  assert (Hwf : wfScanner (scanner (resetScanner ps r))).
  { unfold wfScanner, resetScanner, Buffer. cbn [scanner start end_ buf NewScanner]. lia. }
  assert (H0 : length (arrayAfter (scanner (resetScanner ps r))) = (16 * 1024)%nat).
  { unfold arrayAfter, resetScanner, Buffer. cbn [scanner lent buf]. exact Hlen. }
  destruct (scanAll_returns (linesFuel (scanner (resetScanner ps r))) _ Hwf)
    as (sc1 & ls & Hall & _ & Harr); [unfold linesFuel, unread; lia|].
  rewrite Hall in Hs. injection Hs as _ ->. congruence.
Qed.


(** ** scanHTMLFile against the description of the normalizer *)

Lemma string_app_nil_r (s : string) : (s +:+ "")%string = s.
Proof. induction s as [|c s IH]; [reflexivity|]. change (String c (s +:+ "") = String c s). rewrite IH. reflexivity. Qed.

Lemma string_app_assoc (s t u : string) : ((s +:+ t) +:+ u)%string = (s +:+ t +:+ u)%string.
Proof.
  induction s as [|c s IH]; [reflexivity|].
  change (String c ((s +:+ t) +:+ u) = String c (s +:+ t +:+ u)). rewrite IH. reflexivity.
Qed.

(** The block-level set of the specification. *)
Definition blockLevelSet : list string :=
  ["p"; "div"; "br"; "h1"; "h2"; "h3"; "h4"; "h5"; "h6";
   "li"; "blockquote"; "hr"; "pre"; "tr"; "table"]%string.

(** A start, end or self-closing tag of the block-level set. *)
Definition isBoundary (tok : Html.Token) : bool :=
  match tok with
  | Html.StartTagToken name | Html.EndTagToken name | Html.SelfClosingTagToken name =>
      bool_decide (name ∈ blockLevelSet)
  | _ => false
  end.

(** What a token adds to the buffer: a text token its text after a
    separating space, any other token nothing. *)
Definition tokenText (tok : Html.Token) : string :=
  match tok with
  | Html.TextToken text => (" " +:+ text)%string
  | _ => ""%string
  end.

(** The runs of tokens between boundaries; the last run is what remains
    when tokenization ends. *)
Fixpoint segments (toks : list Html.Token) : list (list Html.Token) :=
  match toks with
  | [] => [[]]
  | tok :: rest =>
      if isBoundary tok then [] :: segments rest
      else match segments rest with
           | seg :: segs => (tok :: seg) :: segs
           | [] => [[tok]]
           end
  end.

Definition segmentText (seg : list Html.Token) : string :=
  fold_right (fun tok acc => (tokenText tok +:+ acc)%string) ""%string seg.

(** Runs of white space collapsed to single spaces, leading and trailing
    white space trimmed. *)
Definition normalizeWhitespace (s : string) : string := Join (Fields s) " ".

Definition nonEmpty (s : string) : bool := negb (String.eqb s "").

(** The logical lines of a token stream: one per run, normalized, the empty
    ones dropped. *)
Definition logicalLines (toks : list Html.Token) : list string :=
  List.filter nonEmpty (map (fun seg => normalizeWhitespace (segmentText seg)) (segments toks)).

(** The same with text [cur] already in the buffer. *)
Definition logicalLinesFrom (cur : string) (toks : list Html.Token) : list string :=
  List.filter nonEmpty
    (map normalizeWhitespace
       (match map segmentText (segments toks) with
        | t :: ts => (cur +:+ t)%string :: ts
        | [] => [cur]
        end)).

Lemma segments_nonempty (toks : list Html.Token) : segments toks <> [].
Proof.
  destruct toks as [|tok rest]; cbn; [discriminate|].
  destruct (isBoundary tok); [discriminate|]. destruct (segments rest); discriminate.
Qed.

Lemma logicalLines_from_empty (toks : list Html.Token) :
  logicalLines toks = logicalLinesFrom "" toks.
Proof.
  unfold logicalLines, logicalLinesFrom. rewrite <- (map_map segmentText normalizeWhitespace).
  pose proof (segments_nonempty toks) as Hne.
  destruct (segments toks); [congruence|reflexivity].
Qed.

Lemma flushLine_spec (textLines : list string) (cur : string) :
  flushLine textLines cur = textLines ++ List.filter nonEmpty [normalizeWhitespace cur].
Proof.
  unfold flushLine, normalizeWhitespace, nonEmpty. cbn [List.filter].
  destruct (String.eqb (Join (Fields cur) " ") ""); cbn; [rewrite app_nil_r|]; reflexivity.
Qed.

Lemma isBlockLevelTag_boundary (tok : Html.Token) (name : string) :
  tok = Html.StartTagToken name \/ tok = Html.EndTagToken name \/
  tok = Html.SelfClosingTagToken name ->
  isBlockLevelTag name = isBoundary tok.
Proof. intros [H|[H|H]]; subst tok; reflexivity. Qed.

(** A token that leaves the buffer as it is. *)
Ltac skipped_case IH Hstep tok rest textLines cur tokenCount :=
  let l := fresh "l" in let c := fresh "c" in
  let E := fresh "E" in let F := fresh "F" in
  destruct (IH (add tokenCount 1) textLines cur) as (l & c & E & F);
  exists l, c; split; [exact E|]; rewrite F;
  rewrite <- (Hstep tok rest textLines cur eq_refl);
  cbn [tokenText]; rewrite string_app_nil_r; reflexivity.

(** A tag: it flushes the buffer when it is block-level and is skipped
    otherwise. *)
Ltac tag_case IH Hstep tok name rest textLines cur tokenCount :=
  let Hb := fresh "Hb" in let Hne := fresh "Hne" in
  let l := fresh "l" in let c := fresh "c" in
  let E := fresh "E" in let F := fresh "F" in
  rewrite (isBlockLevelTag_boundary tok name) by tauto;
  destruct (isBoundary tok) eqn:Hb;
  [ destruct (IH (add tokenCount 1) (flushLine textLines cur) ""%string) as (l & c & E & F);
    exists l, c; split; [exact E|]; rewrite F, flushLine_spec, <- app_assoc; f_equal;
    unfold logicalLinesFrom; cbn [segments]; rewrite Hb;
    pose proof (segments_nonempty rest) as Hne;
    destruct (segments rest) as [|? ?]; [congruence|];
    cbn [map segmentText fold_right List.filter]; rewrite string_app_nil_r;
    destruct (nonEmpty (normalizeWhitespace cur)); reflexivity
  | destruct (IH (add tokenCount 1) textLines cur) as (l & c & E & F);
    exists l, c; split; [exact E|]; rewrite F;
    rewrite <- (Hstep tok rest textLines cur Hb);
    cbn [tokenText]; rewrite string_app_nil_r; reflexivity ].

(** The tokenizing loop computes the logical lines, when no poll finds the
    context done. *)
Lemma tokenLoop_spec (toks : list Html.Token) (ctx : Context) (tokenCount : Z)
  (textLines : list string) (cur : string) :
  remaining ctx = None ->
  exists textLines' cur',
    tokenLoop toks ctx tokenCount textLines cur = (Some (textLines', cur'), ctx, []) /\
    flushLine textLines' cur' = textLines ++ logicalLinesFrom cur toks.
Proof.
  intros Hctx. revert tokenCount textLines cur.
  assert (Hpoll : forall tc : Z,
            (if Z.rem tc 100 =? 0 then poll ctx else (None, ctx)) = (None, ctx)).
  { intros tc. destruct (Z.rem tc 100 =? 0); [|reflexivity]. unfold poll. rewrite Hctx. reflexivity. }
  assert (Hstep : forall (tok : Html.Token) (rest : list Html.Token) (lines : list string)
                         (cur : string),
            isBoundary tok = false ->
            lines ++ logicalLinesFrom (cur +:+ tokenText tok) rest =
            lines ++ logicalLinesFrom cur (tok :: rest)).
  { intros tok rest lines cur Hb. f_equal. unfold logicalLinesFrom. cbn [segments]. rewrite Hb.
    pose proof (segments_nonempty rest) as Hne.
    destruct (segments rest) as [|seg segs]; [congruence|].
    cbn [map segmentText fold_right]. rewrite string_app_assoc. reflexivity. }
  induction toks as [|tok rest IH]; intros tokenCount textLines cur.
  - cbn [tokenLoop]. rewrite Hpoll. exists textLines, cur. split; [reflexivity|].
    rewrite flushLine_spec. unfold logicalLinesFrom. cbn [segments map segmentText fold_right].
    rewrite string_app_nil_r. reflexivity.
  - cbn [tokenLoop]. rewrite Hpoll.
    destruct tok as [text|name|name|name| |].
    + destruct (IH (add tokenCount 1) textLines (cur +:+ " " +:+ text)%string)
        as (l' & c' & E & F).
      exists l', c'. split; [exact E|]. rewrite F.
      apply (Hstep (Html.TextToken text)). reflexivity.
    + tag_case IH Hstep (Html.StartTagToken name) name rest textLines cur tokenCount.
    + tag_case IH Hstep (Html.EndTagToken name) name rest textLines cur tokenCount.
    + tag_case IH Hstep (Html.SelfClosingTagToken name) name rest textLines cur tokenCount.
    + skipped_case IH Hstep Html.CommentToken rest textLines cur tokenCount.
    + skipped_case IH Hstep Html.DoctypeToken rest textLines cur tokenCount.
Qed.


Lemma secondPass_elems (pattern : Regexp) (fileName : string) (k : Z)
  (lines rest : list string) (i : Z) (acc1 acc2 : slice Match) :
  elems acc1 = elems acc2 ->
  mapExec elems (secondPass pattern fileName k lines i rest acc1) =
  mapExec elems (secondPass pattern fileName k lines i rest acc2).
Proof.
  revert i acc1 acc2. induction rest as [|line rest IH]; intros i acc1 acc2 Hacc.
  - cbn. rewrite Hacc. reflexivity.
  - cbn [secondPass]. destruct (MatchString pattern line); [|apply IH; exact Hacc].
    destruct (subslice lines _ _); cbn [bind]; try reflexivity.
    apply IH. rewrite !elems_append, Hacc. reflexivity.
Qed.

Lemma secondPass_fileNames (pattern : Regexp) (fileName : string) (k : Z)
  (lines rest : list string) (i : Z) (acc ms : slice Match) :
  secondPass pattern fileName k lines i rest acc = Done ms ->
  Forall (fun m => FileName m = fileName) (elems acc) ->
  Forall (fun m => FileName m = fileName) (elems ms).
Proof.
  revert i acc. induction rest as [|line rest IH]; intros i acc.
  - cbn. intros [= <-] H. exact H.
  - cbn [secondPass]. destruct (MatchString pattern line); [|apply IH].
    destruct (subslice lines _ _); cbn [bind]; try discriminate.
    intros Hrec Hacc. apply (IH _ _ Hrec). rewrite elems_append.
    apply Forall_app. split; [exact Hacc|]. constructor; [reflexivity|constructor].
Qed.

Lemma scanHTMLFile_result (pool : tokenizerPool) (ctx : Context) (r : Reader)
  (pattern : Regexp) (fileName : string) (k : Z) :
  fst (scanHTMLFile pool ctx r pattern fileName k) =
  fst (scanHTML ctx (NewTokenizer r) pattern fileName k).
Proof.
  unfold scanHTMLFile. destruct (getTokenizer pool) as [pt pool'].
  unfold resetTokenizer. cbn [tokenizer].
  destruct (scanHTML ctx (NewTokenizer r) pattern fileName k) as [[res ctx'] z']. reflexivity.
Qed.

(** Without cancellation the HTML scanner runs the emitting loop over the
    logical lines of the token stream. *)
Lemma scanHTML_logicalLines (ctx : Context) (r : Reader)
  (pattern : Regexp) (fileName : string) (k : Z) :
  remaining ctx = None ->
  fst (scanHTML ctx (NewTokenizer r) pattern fileName k) =
    (emitMatches pattern fileName k (logicalLines (htmlTokens r)) 0
                 (logicalLines (htmlTokens r)) nilSlice, ctx).
Proof.
  intros Hctx. unfold scanHTML, NewTokenizer. cbn [Html.pending].
  destruct (tokenLoop_spec (htmlTokens r) ctx 0 [] ""%string Hctx) as (l' & c' & E & F).
  rewrite E. cbn [fst]. rewrite F, logicalLines_from_empty. reflexivity.
Qed.

(** A context that is already done: the first poll returns [nil]. *)
Lemma scanHTML_cancelled (e : CtxErr) (z : Html.Tokenizer)
  (pattern : Regexp) (fileName : string) (k : Z) :
  fst (fst (scanHTML (cancelled e) z pattern fileName k)) = Done nilSlice.
Proof.
  unfold scanHTML. destruct (Html.pending z) as [|tok rest]; reflexivity.
Qed.

End WithLibrary.

End Scanners.

(* ===================================================================== *)
(** * A library instance for the examples *)
(* ===================================================================== *)

(** The library functions restricted to what the examples need: ASCII white
    space and letters, patterns that are literal alternatives, and markup made
    of plain tags and text.  No theorem about the package depends on it. *)
Module AsciiLibrary.
Import Go.

Definition isSpace (c : ascii) : bool :=
  bool_decide (c ∈ ["009"; "010"; "011"; "012"; "013"; " "]%char).

Fixpoint dropSpace (cs : list ascii) : list ascii :=
  match cs with
  | c :: cs' => if isSpace c then dropSpace cs' else cs
  | [] => []
  end.

Definition trimSpace (s : string) : string :=
  string_of_list_ascii
    (rev (dropSpace (rev (dropSpace (list_ascii_of_string s))))).

(** The fields of [cs]; [cur] is the field in progress, reversed. *)
Fixpoint fieldsFrom (cs cur : list ascii) : list string :=
  let close := match cur with
               | [] => []
               | _ :: _ => [string_of_list_ascii (rev cur)]
               end in
  match cs with
  | [] => close
  | c :: cs' => if isSpace c then close ++ fieldsFrom cs' [] else fieldsFrom cs' (c :: cur)
  end.

Definition fields (s : string) : list string := fieldsFrom (list_ascii_of_string s) [].

Definition lowerChar (c : ascii) : ascii :=
  let n := nat_of_ascii c in
  if (65 <=? n)%nat && (n <=? 90)%nat then ascii_of_nat (n + 32) else c.

Definition toLower (s : string) : string :=
  string_of_list_ascii (map lowerChar (list_ascii_of_string s)).

Definition equalFold (s t : string) : bool := String.eqb (toLower s) (toLower t).

(** Split at every occurrence of the byte [sep]. *)
Fixpoint splitOn (sep : ascii) (cs cur : list ascii) : list string :=
  match cs with
  | [] => [string_of_list_ascii (rev cur)]
  | c :: cs' =>
      if Ascii.eqb c sep
      then string_of_list_ascii (rev cur) :: splitOn sep cs' []
      else splitOn sep cs' (c :: cur)
  end.

(** Patterns: literal alternatives separated by "|", after an optional
    "(?i)". *)
Definition literalMatch (expr s : string) : bool :=
  let fold := String.prefix "(?i)" expr in
  let body := if fold then String.substring 4 (String.length expr - 4) expr else expr in
  let subject := if fold then toLower s else s in
  existsb (fun alt => Contains subject (if fold then toLower alt else alt))
          (splitOn "|" (list_ascii_of_string body) []).

(** Markup: "<name ...>", "</name>", "<name/>" and the text between. *)
Definition tagToken (inner : list ascii) : Html.Token :=
  let name cs := toLower (string_of_list_ascii
                            (take (default (length cs) (Bufio.indexByte cs " ")) cs)) in
  match inner with
  | "/"%char :: cs => Html.EndTagToken (name cs)
  | "!"%char :: _ => Html.CommentToken
  | _ => match last inner with
         | Some "/"%char => Html.SelfClosingTagToken (name (take (length inner - 1) inner))
         | _ => Html.StartTagToken (name inner)
         end
  end.

Fixpoint markup (cs cur : list ascii) (inTag : bool) : list Html.Token :=
  match cs with
  | [] => match cur with
          | [] => []
          | _ :: _ => [Html.TextToken (string_of_list_ascii (rev cur))]
          end
  | c :: cs' =>
      if inTag then
        if Ascii.eqb c ">" then tagToken (rev cur) :: markup cs' [] false
        else markup cs' (c :: cur) true
      else
        if Ascii.eqb c "<" then
          match cur with
          | [] => markup cs' [] true
          | _ :: _ => Html.TextToken (string_of_list_ascii (rev cur)) :: markup cs' [] true
          end
        else markup cs' (c :: cur) false
  end.

#[export] Instance asciiLibrary : Library := {|
  regexMatch := literalMatch;
  TrimSpace := trimSpace;
  Fields := fields;
  ToLower := toLower;
  EqualFold := equalFold;
  htmlTokens := fun r => markup (Bufio.data r) [] false
|}.

End AsciiLibrary.

(* ===================================================================== *)
(** * The claims about the content scanners *)
(* ===================================================================== *)

Module ScannerClaims.
Import GoInt Go Bufio Pooled Scanners AsciiLibrary.

(** The test content of [AdjacentMatchesOverlapContext]. *)
Definition adjacentText : string :=
  "line1" +:+ nl +:+ "target1 here" +:+ nl +:+ "line3" +:+ nl +:+ "target2 here"
          +:+ nl +:+ "line5".

Definition target : Regexp := mkRegexp 0 "target".

Example adjacent_matches_overlap_context :
  fst (scanTextFile [] (NewReader adjacentText) target "adjacent.txt" 1) =
    Done (mkSlice [mkMatch ("line1" +:+ nl +:+ "target1 here" +:+ nl +:+ "line3") "adjacent.txt";
                   mkMatch ("line3" +:+ nl +:+ "target2 here" +:+ nl +:+ "line5") "adjacent.txt"]).
Proof. vm_compute. reflexivity. Qed.

Example lines_of_adjacent_text :
  linesOf [] (NewReader adjacentText) =
    Done (["line1"; "target1 here"; "line3"; "target2 here"; "line5"]%string, None).
Proof. vm_compute. reflexivity. Qed.

Definition sampleMarkup : string :=
  "<html><body><p>Hello <b>big</b> world</p><div>second   target line</div>tail</body></html>".

Example html_logical_lines :
  logicalLines (htmlTokens (NewReader sampleMarkup)) =
    ["Hello big world"; "second target line"; "tail"]%string.
Proof. vm_compute. reflexivity. Qed.

(** C1 at the failing input: with the largest [int] as context count the
    sum [i + contextLines + 1] wraps to a negative number, the upper bound of
    the slice expression is negative, and both scanners panic at the first
    matching line instead of emitting its window. *)
Example C1_largest_context_panics :
  fst (scanTextFile [] (NewReader "x") (mkRegexp 0 "x") "a.txt" maxInt) = Panicked /\
  fst (fst (scanHTMLFile [] background (NewReader "x") (mkRegexp 0 "x") "a.html" maxInt))
    = Panicked.
Proof. split; vm_compute; reflexivity. Qed.

(** C1 where the window arithmetic stays within [int] (context count [k >= 0]
    with [k + n <= maxInt] for [n] lines): the text scanner, and the HTML
    scanner over its logical lines, emit for every index [i] whose line matches
    exactly one [Match], in line order, whose text is the lines
    [[max(0, i-k), min(n, i+k+1))] joined by newline and trimmed. *)
Theorem context_windows_within_range {lib : Library}
  (pattern : Regexp) (fileName : string) (k : Z) :
  0 <= k ->
  (forall (pool : scannerPool) (r : Reader) (lines : list string),
     linesOf pool r = Done (lines, None) ->
     k + len lines <= maxInt ->
     fst (scanTextFile pool r pattern fileName k) =
       Done (mkSlice (expectedMatches pattern fileName (Z.to_nat k) lines))) /\
  (forall (pool : tokenizerPool) (ctx : Context) (r : Reader),
     remaining ctx = None ->
     k + len (logicalLines (htmlTokens r)) <= maxInt ->
     mapExec elems (fst (fst (scanHTMLFile pool ctx r pattern fileName k))) =
       Done (expectedMatches pattern fileName (Z.to_nat k) (logicalLines (htmlTokens r)))).
Proof.
  intros Hk. split.
  - intros pool r lines Hlines Hmax. apply scanTextFile_expected; assumption.
  - intros pool ctx r Hctx Hmax.
    rewrite scanHTMLFile_result, scanHTML_logicalLines by exact Hctx. cbn [fst].
    rewrite emitMatches_secondPass.
    rewrite (secondPass_spec pattern fileName k _ Hk Hmax _ 0 _ eq_refl).
    cbn. rewrite elems_append. reflexivity.
Qed.

Lemma context_windows_within_range_witness :
  (forall (pool : scannerPool) (r : Reader) (lines : list string),
     linesOf pool r = Done (lines, None) ->
     1 + len lines <= maxInt ->
     fst (scanTextFile pool r target "adjacent.txt" 1) =
       Done (mkSlice (expectedMatches target "adjacent.txt" (Z.to_nat 1) lines))) /\
  (forall (pool : tokenizerPool) (ctx : Context) (r : Reader),
     remaining ctx = None ->
     1 + len (logicalLines (htmlTokens r)) <= maxInt ->
     mapExec elems (fst (fst (scanHTMLFile pool ctx r target "adjacent.txt" 1))) =
       Done (expectedMatches target "adjacent.txt" (Z.to_nat 1) (logicalLines (htmlTokens r)))).
Proof.
  apply (context_windows_within_range target "adjacent.txt" 1). lia.
Defined.

(** C6.  When no poll finds the context done, the matches [scanHTMLFile]
    returns are those of the text scanner's second pass run over the logical
    lines of the token stream: the runs of tokens between block-level tags,
    each text token added after a separating space, every run normalized and
    the empty ones dropped.  Every match carries the entry name, and within
    [int] range the windows are those of the window formula. *)
Theorem C6_html_scan_is_text_algorithm_on_logical_lines {lib : Library}
  (pool : tokenizerPool) (ctx : Context) (r : Reader)
  (pattern : Regexp) (fileName : string) (k : Z) :
  remaining ctx = None ->
  let textLines := logicalLines (htmlTokens r) in
  let result := fst (fst (scanHTMLFile pool ctx r pattern fileName k)) in
  mapExec elems result =
    mapExec elems (secondPass pattern fileName k textLines 0 textLines (mkSlice [])) /\
  (forall ms, result = Done ms -> Forall (fun m => FileName m = fileName) (elems ms)) /\
  (0 <= k -> k + len textLines <= maxInt ->
   mapExec elems result = Done (expectedMatches pattern fileName (Z.to_nat k) textLines)).
Proof.
  intros Hctx textLines result.
  assert (E : result = secondPass pattern fileName k textLines 0 textLines nilSlice).
  { subst result textLines.
    rewrite scanHTMLFile_result, scanHTML_logicalLines by exact Hctx. cbn [fst].
    apply emitMatches_secondPass. }
  split; [|split].
  - rewrite E. apply secondPass_elems. reflexivity.
  - intros ms Hms. rewrite E in Hms.
    apply (secondPass_fileNames _ _ _ _ _ _ _ _ Hms). constructor.
  - intros Hk Hmax. rewrite E.
    rewrite (secondPass_spec pattern fileName k _ Hk Hmax _ 0 _ eq_refl).
    cbn. rewrite elems_append. reflexivity.
Qed.

Lemma C6_html_scan_is_text_algorithm_on_logical_lines_witness :
  let textLines := logicalLines (htmlTokens (NewReader sampleMarkup)) in
  let result := fst (fst (scanHTMLFile [] background (NewReader sampleMarkup) target "c.xhtml" 1)) in
  mapExec elems result =
    mapExec elems (secondPass target "c.xhtml" 1 textLines 0 textLines (mkSlice [])) /\
  (forall ms, result = Done ms -> Forall (fun m => FileName m = "c.xhtml"%string) (elems ms)) /\
  (0 <= 1 -> 1 + len textLines <= maxInt ->
   mapExec elems result = Done (expectedMatches target "c.xhtml" (Z.to_nat 1) textLines)).
Proof.
  apply (C6_html_scan_is_text_algorithm_on_logical_lines
           [] background (NewReader sampleMarkup) target "c.xhtml" 1).
  reflexivity.
Defined.

Example html_scan_sample :
  fst (fst (scanHTMLFile [] background (NewReader sampleMarkup) target "c.xhtml" 1)) =
    Done (mkSlice [mkMatch ("Hello big world" +:+ nl +:+ "second target line" +:+ nl +:+ "tail")
                           "c.xhtml"]).
Proof. vm_compute. reflexivity. Qed.




End ScannerClaims.

(* ===================================================================== *)
(** * types.go *)
(* ===================================================================== *)

Module Types.
Import Go.

Record SearchRequestRegex := mkRegexSpec { Pattern : string }.

Record SearchRequestText := mkTextSpec { Value : string; IgnoreCase : bool }.

(** The two pointers are [None] when [nil]. *)
Record SearchRequestQuery := mkQuery {
  Regex : option SearchRequestRegex;
  IsRegex : bool;
  Text : option SearchRequestText
}.

Record SearchRequestFilters := mkFilters {
  AuthorEquals : string;
  SeriesEquals : string;
  TitleEquals : string;
  FilesIn : list string
}.

Record SearchRequest := mkRequest {
  Query : SearchRequestQuery;
  Filters : option SearchRequestFilters;
  Context_ : Z
}.

(** [Metadata] without [SeriesPosition] (a float64) and [Identifiers]; no
    function modelled here reads either. *)
Record Metadata := mkMetadata {
  Title : string;
  Authors : list string;
  Genres : list string;
  Series : string;
  YearReleased : Z
}.

(** The zero value [Metadata{}]. *)
Definition zeroMetadata : Metadata := mkMetadata "" [] [] "" 0.

Record SearchResult := mkResult {
  Path : string;
  ResultMetadata : Metadata;
  Matches : slice Match
}.

(** The errors the package returns. *)
Inductive error :=
| ErrRegexRequired
| ErrTextRequired
| ErrInvalidPattern (pattern msg : string)
| ErrOpenEpub (epubPath : string) (size : option Z) (cause : string)
| ErrContext (e : CtxErr)
| ErrWalk (msg : string)
| ErrMetadata (msg : string)
| ErrHandler (msg : string).

(** [errors.Is(err, context.Canceled)]. *)
Definition isCanceled (err : error) : bool :=
  match err with
  | ErrContext Canceled => true
  | _ => false
  end.

End Types.

(* ===================================================================== *)
(** * file_search_utilities.go: the archive extractor and the filters *)
(* ===================================================================== *)

Module Extractor.
Import GoInt Go Bufio Pooled Scanners Types.

(** ** path/filepath, for "/" as the separator *)

Definition isSlash (c : ascii) : bool := Ascii.eqb c "/".

(** The bytes after the last "/" of [cs], given reversed. *)
Fixpoint lastElementRev (rev_cs : list ascii) : list ascii :=
  match rev_cs with
  | [] => []
  | c :: rest => if isSlash c then [] else c :: lastElementRev rest
  end.

Fixpoint dropSlashes (rev_cs : list ascii) : list ascii :=
  match rev_cs with
  | c :: rest => if isSlash c then dropSlashes rest else rev_cs
  | [] => []
  end.

(** [filepath.Base]. *)
Definition Base (path : string) : string :=
  if String.eqb path "" then "."
  else
    let stripped := dropSlashes (rev (list_ascii_of_string path)) in
    match rev (lastElementRev stripped) with
    | [] => "/"
    | cs => string_of_list_ascii cs
    end.

(** The extension within the last element, scanning from the end. *)
Fixpoint extRev (rev_cs acc : list ascii) : list ascii :=
  match rev_cs with
  | [] => []
  | c :: rest =>
      if isSlash c then []
      else if Ascii.eqb c "." then c :: acc
      else extRev rest (c :: acc)
  end.

(** [filepath.Ext]. *)
Definition Ext (path : string) : string :=
  string_of_list_ascii (extRev (rev (list_ascii_of_string path)) []).

(** [*zip.File] as the extractor uses it; [content] is [None] when
    [f.Open()] fails. *)
Record zipFile := mkZipFile {
  Name : string;
  IsDir : bool;
  content : option Reader
}.

(** What [os.Stat] and [zip.OpenReader] give for a path. *)
Inductive epubOnDisk :=
| Unreadable (size : option Z) (cause : string)
| Readable (files : list zipFile).

Record Pools := mkPools { scanners : scannerPool; tokenizers : tokenizerPool }.

Section WithLibrary.
Context {lib : Library}.

Definition getFileType (name : string) : string :=
  let ext := ToLower (Ext name) in
  if String.eqb ext ".txt" then "text"
  else if bool_decide (ext ∈ [".html"; ".xhtml"; ".xml"]%string) then "html"
  else "".

Definition skipFiles : list string :=
  ["cover.xhtml"; "toc.xhtml"; "titlepage.xhtml"; "copyright.xhtml";
   "imprint.xhtml"; "dedication.xhtml"; "dedication-1.xhtml";
   "license.xhtml"; "license-1.xhtml"; "colophon.xhtml";
   "about.xhtml"; "about-1.xhtml"; "acknowledgments.xhtml";
   "appendix.xhtml"; "afterword.xhtml"; "notes.xhtml";
   "bibliography.xhtml"; "index.xhtml"; "epilogue.xhtml";
   "glossary.xhtml"; "extra.xhtml"; "ads.xhtml"; "trailer.xhtml"]%string.

Definition promoKeywords : list string := ["sample"; "advert"; "promo"; "teaser"]%string.

Definition shouldSkipFile (fileName : string) : bool :=
  let lowerName := ToLower fileName in
  let baseName := ToLower (Base fileName) in
  if String.eqb fileName "mimetype" || String.eqb fileName "META-INF/container.xml" then true
  else if bool_decide (baseName ∈ skipFiles) then true
  else existsb (fun keyword => Contains lowerName keyword) promoKeywords.

(** The [switch getFileType(f.Name)] of [grepInEpub]: what one opened entry
    contributes, and what the scan leaves of the context and the pools. *)
Definition scanEntry (f : zipFile) (rc : Reader) (ctx : Context) (pools : Pools)
  (pattern : Regexp) (contextLines : Z) : exec (slice Match) * Context * Pools :=
  if String.eqb (getFileType (Name f)) "text" then
    let '(res, sp) := scanTextFile (scanners pools) rc pattern (Name f) contextLines in
    (res, ctx, mkPools sp (tokenizers pools))
  else if String.eqb (getFileType (Name f)) "html" then
    let '(res, ctx, tp) :=
      scanHTMLFile (tokenizers pools) ctx rc pattern (Name f) contextLines in
    (res, ctx, mkPools (scanners pools) tp)
  else (Done nilSlice, ctx, pools).

(** The loop [for _, f := range r.File] of [grepInEpub]. *)
Fixpoint grepFiles (files : list zipFile) (ctx : Context) (pools : Pools)
  (pattern : Regexp) (contextLines : Z) (matches : slice Match)
  : exec (slice Match * option error) * Context * Pools :=
  match files with
  | [] => (Done (matches, None), ctx, pools)
  | f :: rest =>
      if IsDir f then grepFiles rest ctx pools pattern contextLines matches
      else if shouldSkipFile (Name f) then grepFiles rest ctx pools pattern contextLines matches
      else
        match poll ctx with
        | (Some e, ctx) => (Done (nilSlice, Some (ErrContext e)), ctx, pools)
        | (None, ctx) =>
            match content f with
            | None => grepFiles rest ctx pools pattern contextLines matches
            | Some rc =>
                match scanEntry f rc ctx pools pattern contextLines with
                | (Done fileMatches, ctx, pools) =>
                    grepFiles rest ctx pools pattern contextLines
                              (append matches (elems fileMatches))
                | (Panicked, ctx, pools) => (Panicked, ctx, pools)
                | (OutOfFuel, ctx, pools) => (OutOfFuel, ctx, pools)
                end
            end
        end
  end.

Definition grepInEpub (ctx : Context) (pools : Pools) (onDisk : epubOnDisk)
  (epubPath : string) (pattern : Regexp) (contextLines : Z)
  : exec (slice Match * option error) * Context * Pools :=
  match onDisk with
  | Unreadable size cause => (Done (nilSlice, Some (ErrOpenEpub epubPath size cause)), ctx, pools)
  | Readable files => grepFiles files ctx pools pattern contextLines nilSlice
  end.

(** [matchesMetadataFilters]. *)
Definition matchesMetadataFilters (metadata : Metadata) (filters : SearchRequestFilters) : bool :=
  if negb (String.eqb (AuthorEquals filters) "") &&
     negb (existsb (fun author => EqualFold author (AuthorEquals filters)) (Authors metadata))
  then false
  else if negb (String.eqb (SeriesEquals filters) "") &&
          negb (EqualFold (Series metadata) (SeriesEquals filters))
  then false
  else if negb (String.eqb (TitleEquals filters) "") &&
          negb (EqualFold (Title metadata) (TitleEquals filters))
  then false
  else true.

(** ** What [grepInEpub] returns *)

Definition noMatch (pattern : Regexp) (ls : list string) : Prop :=
  Forall (fun l => MatchString pattern l = false) ls.

(** [ls] are the lines a scan of the entry [f] works on: the lines
    [scanTextFile] reads from a text entry (with a scanner fresh from
    [newPooledScanner]; by [linesOf_pool_independent] any pooled one reads
    the same), the logical lines of an HTML entry. *)
Definition entryLines (f : zipFile) (ls : list string) : Prop :=
  match content f with
  | None => False
  | Some rc =>
      if String.eqb (getFileType (Name f)) "text"
      then exists e, linesOf [] rc = Done (ls, e)
      else if String.eqb (getFileType (Name f)) "html"
           then ls = logicalLines (htmlTokens rc)
           else False
  end.

Definition windowsFit (k : Z) (files : list zipFile) : Prop :=
  forall f ls, f ∈ files -> entryLines f ls -> k + len ls <= maxInt.

Definition noEntryMatches (pattern : Regexp) (files : list zipFile) : Prop :=
  forall f ls, f ∈ files -> entryLines f ls -> noMatch pattern ls.

Lemma poll_live (ctx : Context) : remaining ctx = None -> poll ctx = (None, ctx).
Proof. intros H. unfold poll. rewrite H. reflexivity. Qed.

Lemma poll_done (ctx : Context) (e : CtxErr) (ctx' : Context) :
  poll ctx = (Some e, ctx') -> e = cause ctx /\ remaining ctx <> None.
Proof.
  unfold poll. destruct (remaining ctx) as [[|n]|] eqn:E; intros [= <- <-]; split;
    [reflexivity|discriminate].
Qed.

Lemma poll_cause (ctx : Context) : cause (snd (poll ctx)) = cause ctx.
Proof. unfold poll. destruct (remaining ctx) as [[|n]|]; reflexivity. Qed.

Lemma poll_remaining (ctx : Context) :
  remaining ctx <> None -> remaining (snd (poll ctx)) <> None.
Proof.
  unfold poll. destruct (remaining ctx) as [[|n]|] eqn:E; cbn; rewrite ?E;
    [intros _; discriminate|intros _; discriminate|tauto].
Qed.

Lemma secondPass_noMatch (pattern : Regexp) (fileName : string) (k : Z)
  (lines rest : list string) (i : Z) (acc : slice Match) :
  noMatch pattern rest ->
  secondPass pattern fileName k lines i rest acc = Done acc.
Proof.
  intros H. revert i. induction H as [|line rest Hl _ IH]; intros i; [reflexivity|].
  cbn [secondPass]. rewrite Hl. apply IH.
Qed.

Lemma fastStep_noMatch (pattern : Regexp) (fileName : string)
  (rest : list string) (acc : slice Match) :
  noMatch pattern rest ->
  fold_left (fastStep pattern fileName) rest acc = acc.
Proof.
  intros H. induction H as [|line rest Hl _ IH]; [reflexivity|].
  cbn [fold_left]. unfold fastStep at 2. rewrite Hl. exact IH.
Qed.

(** A text entry without a matching line contributes no match. *)
Lemma scanTextFile_noMatch (pool : scannerPool) (r : Reader) (pattern : Regexp)
  (fileName : string) (k : Z) (ls : list string) (e : option ioErr) :
  linesOf pool r = Done (ls, e) -> noMatch pattern ls ->
  exists ms, fst (scanTextFile pool r pattern fileName k) = Done ms /\ elems ms = [].
Proof.
  intros Hlines Hno. rewrite scanTextFile_result, scanText_lines.
  unfold linesOf in Hlines.
  destruct (scanAll _ _) as [[sc' ls']| |]; cbn in Hlines; try discriminate.
  injection Hlines as -> HE. cbn [fst]. destruct (Err sc'); [eauto|].
  destruct (k =? 0).
  - rewrite fastStep_noMatch by exact Hno. eauto.
  - rewrite secondPass_noMatch by exact Hno. eauto.
Qed.

(** A text entry whose windows fit returns. *)
Lemma scanTextFile_returns (pool : scannerPool) (r : Reader) (pattern : Regexp)
  (fileName : string) (k : Z) :
  0 <= k ->
  (forall ls e, linesOf pool r = Done (ls, e) -> k + len ls <= maxInt) ->
  exists ms, fst (scanTextFile pool r pattern fileName k) = Done ms.
Proof.
  intros Hk Hfit. destruct (linesOf_returns pool r) as (ls & e & Hlines).
  destruct e as [e|].
  - rewrite (scanTextFile_scan_error _ _ _ _ _ _ _ Hlines). eauto.
  - rewrite (scanTextFile_expected _ _ _ _ _ _ Hlines Hk (Hfit _ _ Hlines)). eauto.
Qed.

Lemma scanHTMLFile_live (pool : tokenizerPool) (ctx : Context) (r : Reader)
  (pattern : Regexp) (fileName : string) (k : Z) :
  remaining ctx = None ->
  fst (scanHTMLFile pool ctx r pattern fileName k) =
    (secondPass pattern fileName k (logicalLines (htmlTokens r)) 0
                (logicalLines (htmlTokens r)) nilSlice, ctx).
Proof.
  intros Hctx. rewrite scanHTMLFile_result, scanHTML_logicalLines by exact Hctx.
  rewrite emitMatches_secondPass. reflexivity.
Qed.

(** The context only moves towards its end. *)
Lemma scanHTMLFile_ctx (pool : tokenizerPool) (ctx : Context) (r : Reader)
  (pattern : Regexp) (fileName : string) (k : Z) :
  cause (snd (fst (scanHTMLFile pool ctx r pattern fileName k))) = cause ctx /\
  (remaining ctx <> None ->
   remaining (snd (fst (scanHTMLFile pool ctx r pattern fileName k))) <> None).
Proof.
  rewrite scanHTMLFile_result. unfold scanHTML.
  assert (H : forall toks c tc l cur,
            cause (snd (fst (tokenLoop toks c tc l cur))) = cause c /\
            (remaining c <> None -> remaining (snd (fst (tokenLoop toks c tc l cur))) <> None)).
  { induction toks as [|tok rest IH]; intros c tc l cur; cbn [tokenLoop].
    - destruct (Z.rem tc 100 =? 0).
      + pose proof (poll_cause c) as Hc. pose proof (poll_remaining c) as Hr.
        destruct (poll c) as [[e|] c']; cbn [fst snd] in *; split; assumption.
      + split; [reflexivity|tauto].
    - assert (Hp : exists stop c', (if Z.rem tc 100 =? 0 then poll c else (None, c)) = (stop, c') /\
                cause c' = cause c /\ (remaining c <> None -> remaining c' <> None)).
      { destruct (Z.rem tc 100 =? 0).
        - pose proof (poll_cause c) as Hc. pose proof (poll_remaining c) as Hr.
          destruct (poll c) as [stop c']; cbn [fst snd] in *. eauto.
        - eauto. }
      destruct Hp as (stop & c' & -> & Hc & Hr).
      destruct stop; cbn [fst snd]; [split; assumption|].
      destruct tok as [text|name|name|name| |];
        try destruct (isBlockLevelTag name);
        match goal with
        | |- context [tokenLoop rest c' ?tc' ?l' ?cur'] =>
            destruct (IH c' tc' l' cur') as [IH1 IH2]; split; [congruence|tauto]
        end. }
  specialize (H (Html.pending (NewTokenizer r)) ctx 0 [] ""%string).
  destruct (tokenLoop _ _ _ _ _) as [[[[l c]|] ctx'] unread]; cbn [fst snd] in *; exact H.
Qed.


Lemma grepFiles_cons (f : zipFile) (rest : list zipFile) (ctx : Context) (pools : Pools)
  (pattern : Regexp) (k : Z) (matches : slice Match) :
  grepFiles (f :: rest) ctx pools pattern k matches =
    if IsDir f then grepFiles rest ctx pools pattern k matches
    else if shouldSkipFile (Name f) then grepFiles rest ctx pools pattern k matches
    else match poll ctx with
         | (Some e, ctx1) => (Done (nilSlice, Some (ErrContext e)), ctx1, pools)
         | (None, ctx1) =>
             match content f with
             | None => grepFiles rest ctx1 pools pattern k matches
             | Some rc =>
                 match scanEntry f rc ctx1 pools pattern k with
                 | (Done fileMatches, ctx2, pools2) =>
                     grepFiles rest ctx2 pools2 pattern k (append matches (elems fileMatches))
                 | (Panicked, ctx2, pools2) => (Panicked, ctx2, pools2)
                 | (OutOfFuel, ctx2, pools2) => (OutOfFuel, ctx2, pools2)
                 end
             end
         end.
Proof. reflexivity. Qed.

Lemma scanEntry_ctx (f : zipFile) (rc : Reader) (ctx : Context) (pools : Pools)
  (pattern : Regexp) (k : Z) :
  cause (snd (fst (scanEntry f rc ctx pools pattern k))) = cause ctx /\
  (remaining ctx = None -> snd (fst (scanEntry f rc ctx pools pattern k)) = ctx).
Proof.
  unfold scanEntry.
  destruct (String.eqb (getFileType (Name f)) "text").
  - destruct (scanTextFile _ _ _ _ _) as [res sp]. cbn. tauto.
  - destruct (String.eqb (getFileType (Name f)) "html"); [|cbn; tauto].
    pose proof (scanHTMLFile_ctx (tokenizers pools) ctx rc pattern (Name f) k) as [Hc _].
    pose proof (scanHTMLFile_live (tokenizers pools) ctx rc pattern (Name f) k) as Hl.
    destruct (scanHTMLFile _ _ _ _ _ _) as [[res c] tp]. cbn [fst snd] in *.
    split; [exact Hc|]. intros Hctx. specialize (Hl Hctx). congruence.
Qed.

(** An error comes from a poll that found the context done, and comes with a
    [nil] match list. *)
Lemma grepFiles_error (files : list zipFile) (pattern : Regexp) (k : Z) :
  forall (ctx : Context) (pools : Pools) (matches ms : slice Match) (err : error),
    fst (fst (grepFiles files ctx pools pattern k matches)) = Done (ms, Some err) ->
    ms = nilSlice /\ err = ErrContext (cause ctx) /\ remaining ctx <> None.
Proof.
  induction files as [|f rest IH]; intros ctx pools matches ms err; [discriminate|].
  rewrite grepFiles_cons.
  destruct (IsDir f); [apply IH|].
  destruct (shouldSkipFile (Name f)); [apply IH|].
  pose proof (poll_cause ctx) as Hpc.
  destruct (poll ctx) as [[e|] ctx1] eqn:Hpoll; cbn [fst snd] in *.
  - intros [= <- <-]. destruct (poll_done _ _ _ Hpoll) as [-> Hrem]. tauto.
  - assert (Hlive : remaining ctx = None -> ctx1 = ctx).
    { intros H. rewrite (poll_live ctx H) in Hpoll. congruence. }
    assert (Hback : forall c : Context,
              cause c = cause ctx1 -> (remaining ctx1 = None -> c = ctx1) ->
              forall p m, fst (fst (grepFiles rest c p pattern k m)) = Done (ms, Some err) ->
              ms = nilSlice /\ err = ErrContext (cause ctx) /\ remaining ctx <> None).
    { intros c Hc Hsame p m Hres.
      destruct (IH c p m ms err Hres) as (H1 & H2 & H3).
      split; [exact H1|]. split; [congruence|].
      intros Hnone. apply H3. rewrite Hsame; rewrite (Hlive Hnone); exact Hnone. }
    destruct (content f) as [rc|]; [|apply (Hback ctx1); tauto].
    pose proof (scanEntry_ctx f rc ctx1 pools pattern k) as [Hc Hl].
    destruct (scanEntry f rc ctx1 pools pattern k) as [[[fm| |] ctx2] pools2];
      cbn [fst snd] in *; try discriminate.
    apply (Hback ctx2); assumption.
Qed.

Lemma scanEntry_noMatch (f : zipFile) (rc : Reader) (ctx : Context) (pools : Pools)
  (pattern : Regexp) (k : Z) :
  remaining ctx = None -> content f = Some rc -> poolOK (scanners pools) ->
  (forall ls, entryLines f ls -> noMatch pattern ls) ->
  exists ms, fst (fst (scanEntry f rc ctx pools pattern k)) = Done ms /\ elems ms = [].
Proof.
  intros Hctx Hrc Hpool Hno. unfold scanEntry, entryLines in *. rewrite Hrc in Hno.
  destruct (String.eqb (getFileType (Name f)) "text").
  - destruct (linesOf_returns (scanners pools) rc) as (ls & e & Hlines).
    destruct (scanTextFile_noMatch (scanners pools) rc pattern (Name f) k ls e Hlines)
      as (ms & Hms & Hel).
    { apply Hno. exists e. rewrite <- Hlines.
      apply linesOf_pool_independent; [constructor|exact Hpool]. }
    destruct (scanTextFile _ _ _ _ _) as [res sp]. cbn [fst] in *. eauto.
  - destruct (String.eqb (getFileType (Name f)) "html"); [|cbn; eauto].
    pose proof (scanHTMLFile_live (tokenizers pools) ctx rc pattern (Name f) k Hctx) as Hl.
    destruct (scanHTMLFile _ _ _ _ _ _) as [[res c] tp]. cbn [fst snd] in *.
    injection Hl as -> ->.
    rewrite secondPass_noMatch by (apply Hno; reflexivity). eauto.
Qed.

Lemma scanEntry_returns (f : zipFile) (rc : Reader) (ctx : Context) (pools : Pools)
  (pattern : Regexp) (k : Z) :
  remaining ctx = None -> content f = Some rc -> poolOK (scanners pools) -> 0 <= k ->
  (forall ls, entryLines f ls -> k + len ls <= maxInt) ->
  exists ms, fst (fst (scanEntry f rc ctx pools pattern k)) = Done ms.
Proof.
  intros Hctx Hrc Hpool Hk Hfit. unfold scanEntry, entryLines in *. rewrite Hrc in Hfit.
  destruct (String.eqb (getFileType (Name f)) "text").
  - destruct (scanTextFile_returns (scanners pools) rc pattern (Name f) k Hk) as (ms & Hms).
    { intros ls e Hlines. apply Hfit. exists e. rewrite <- Hlines.
      apply linesOf_pool_independent; [constructor|exact Hpool]. }
    destruct (scanTextFile _ _ _ _ _) as [res sp]. cbn [fst] in *. eauto.
  - destruct (String.eqb (getFileType (Name f)) "html"); [|cbn; eauto].
    pose proof (scanHTMLFile_live (tokenizers pools) ctx rc pattern (Name f) k Hctx) as Hl.
    destruct (scanHTMLFile _ _ _ _ _ _) as [[res c] tp]. cbn [fst snd] in *.
    injection Hl as -> ->.
    rewrite (secondPass_spec pattern (Name f) k _ Hk (Hfit _ eq_refl) _ 0 _ eq_refl). eauto.
Qed.

Lemma scanEntry_pool_ok (f : zipFile) (rc : Reader) (ctx : Context) (pools : Pools)
  (pattern : Regexp) (k : Z) :
  poolOK (scanners pools) -> poolOK (scanners (snd (scanEntry f rc ctx pools pattern k))).
Proof.
  intros Hpool. unfold scanEntry.
  destruct (String.eqb (getFileType (Name f)) "text").
  - pose proof (scanTextFile_pool_ok (scanners pools) rc pattern (Name f) k Hpool) as H.
    destruct (scanTextFile _ _ _ _ _) as [res sp]. exact H.
  - destruct (String.eqb (getFileType (Name f)) "html"); [|exact Hpool].
    destruct (scanHTMLFile _ _ _ _ _ _) as [[res c] tp]. exact Hpool.
Qed.

Lemma grepFiles_returns (files : list zipFile) (pattern : Regexp) (k : Z) (ctx : Context) :
  remaining ctx = None -> 0 <= k -> windowsFit k files ->
  forall (pools : Pools) (matches : slice Match),
  poolOK (scanners pools) ->
  exists ms, fst (fst (grepFiles files ctx pools pattern k matches)) = Done (ms, None).
Proof.
  intros Hctx Hk. induction files as [|f rest IH]; intros Hfit pools matches Hpool;
    [cbn; eauto|].
  assert (Hrest : windowsFit k rest).
  { intros g ls Hg. apply Hfit. right. exact Hg. }
  rewrite grepFiles_cons.
  destruct (IsDir f); [apply IH; assumption|].
  destruct (shouldSkipFile (Name f)); [apply IH; assumption|].
  rewrite (poll_live ctx Hctx).
  destruct (content f) as [rc|] eqn:Hrc; [|apply IH; assumption].
  destruct (scanEntry_returns f rc ctx pools pattern k Hctx Hrc Hpool Hk) as (fm & Hfm).
  { intros ls. apply Hfit. left. }
  destruct (scanEntry_ctx f rc ctx pools pattern k) as [_ Hsame]. specialize (Hsame Hctx).
  pose proof (scanEntry_pool_ok f rc ctx pools pattern k Hpool) as Hpool2.
  destruct (scanEntry f rc ctx pools pattern k) as [[res ctx2] pools2]. cbn [fst snd] in *.
  subst res ctx2. apply IH; assumption.
Qed.

Lemma grepFiles_noMatch (files : list zipFile) (pattern : Regexp) (k : Z) (ctx : Context) :
  remaining ctx = None -> noEntryMatches pattern files ->
  forall (pools : Pools) (matches : slice Match),
  poolOK (scanners pools) ->
  fst (fst (grepFiles files ctx pools pattern k matches)) = Done (matches, None).
Proof.
  intros Hctx. induction files as [|f rest IH]; intros Hno pools matches Hpool; [reflexivity|].
  assert (Hrest : noEntryMatches pattern rest).
  { intros g ls Hg. apply Hno. right. exact Hg. }
  rewrite grepFiles_cons.
  destruct (IsDir f); [apply IH; assumption|].
  destruct (shouldSkipFile (Name f)); [apply IH; assumption|].
  rewrite (poll_live ctx Hctx).
  destruct (content f) as [rc|] eqn:Hrc; [|apply IH; assumption].
  destruct (scanEntry_noMatch f rc ctx pools pattern k Hctx Hrc Hpool) as (fm & Hfm & Hel).
  { intros ls. apply Hno. left. }
  destruct (scanEntry_ctx f rc ctx pools pattern k) as [_ Hsame]. specialize (Hsame Hctx).
  pose proof (scanEntry_pool_ok f rc ctx pools pattern k Hpool) as Hpool2.
  destruct (scanEntry f rc ctx pools pattern k) as [[res ctx2] pools2]. cbn [fst snd] in *.
  subst res ctx2. rewrite Hel. cbn [append]. apply IH; assumption.
Qed.


End WithLibrary.

(** ** The claim about the archive extractor *)

(** C3, as amended.  [grepInEpub] returns an error exactly in two cases, both
    with a [nil] match list: the archive cannot be opened, or a poll before an
    entry finds the context done.  For an archive it opens, under a context
    that is never done and with windows that fit in [int], it returns a [nil]
    error.  When no scanned line of any entry matches, the match list it
    returns is [nil]. *)
Theorem C3_grepInEpub_errors_and_empty_result {lib : Library}
  (ctx : Context) (pools : Pools) (onDisk : epubOnDisk) (epubPath : string)
  (pattern : Regexp) (k : Z) :
  let out := fst (fst (grepInEpub ctx pools onDisk epubPath pattern k)) in
  (forall size why, onDisk = Unreadable size why ->
     out = Done (nilSlice, Some (ErrOpenEpub epubPath size why))) /\
  (forall ms err, out = Done (ms, Some err) ->
     ms = nilSlice /\
     ((exists size why, onDisk = Unreadable size why /\ err = ErrOpenEpub epubPath size why) \/
      (err = ErrContext (cause ctx) /\ remaining ctx <> None))) /\
  (forall files, onDisk = Readable files -> remaining ctx = None ->
     poolOK (scanners pools) -> 0 <= k -> windowsFit k files ->
     exists ms, out = Done (ms, None)) /\
  (forall files, onDisk = Readable files -> remaining ctx = None ->
     poolOK (scanners pools) -> noEntryMatches pattern files ->
     out = Done (nilSlice, None)).
Proof.
  intros out. subst out. split; [|split; [|split]].
  - intros size why ->. reflexivity.
  - intros ms err. destruct onDisk as [size why|files]; cbn [grepInEpub fst].
    + intros [= <- <-]. split; [reflexivity|]. left. eauto.
    + intros H. destruct (grepFiles_error files pattern k ctx pools nilSlice ms err H)
        as (H1 & H2 & H3).
      split; [exact H1|]. right. split; assumption.
  - intros files -> Hctx Hpool Hk Hfit. cbn [grepInEpub].
    apply grepFiles_returns; assumption.
  - intros files -> Hctx Hpool Hno. cbn [grepInEpub].
    apply grepFiles_noMatch; assumption.
Qed.

Import AsciiLibrary.

(** Two content entries after the MIME marker; neither contains "Holmes". *)
Definition quietBook : list zipFile :=
  [mkZipFile "mimetype" false (Some (NewReader "application/epub+zip"));
   mkZipFile "chapter1.txt" false (Some (NewReader "nothing to see"));
   mkZipFile "chapter2.xhtml" false (Some (NewReader "<p>nothing here either</p>"))].

(** The counterexample to C3 as it was stated: for an archive that opens and
    has no matching line, under a live context, the match list returned is the
    [nil] slice that [var matches []Match] declares, not an empty non-nil
    one. *)
Lemma C3_no_match_returns_nil :
  fst (fst (grepInEpub background (mkPools [] []) (Readable quietBook) "quiet.epub"
                       (mkRegexp 0 "Holmes") 0))
    = Done (nilSlice, None) /\
  isNil (@nilSlice Match) = true.
Proof. split; vm_compute; reflexivity. Qed.

(** The hypotheses of C3 hold of this archive. *)
Lemma quietBook_lines (f : zipFile) (ls : list string) :
  f ∈ quietBook -> entryLines f ls ->
  ls = ["nothing to see"%string] \/ ls = ["nothing here either"%string].
Proof.
  intros Hin Hls. unfold quietBook in Hin.
  repeat (apply elem_of_cons in Hin; destruct Hin as [->|Hin]);
    [| | |apply elem_of_nil in Hin; contradiction]; vm_compute in Hls.
  - contradiction.
  - destruct Hls as [e [= <- _]]. left. reflexivity.
  - right. exact Hls.
Qed.

Example quietBook_windows_fit : windowsFit 2 quietBook.
Proof.
  intros f ls Hin Hls. destruct (quietBook_lines f ls Hin Hls) as [->| ->];
    vm_compute; discriminate.
Qed.

Example quietBook_has_no_Holmes : noEntryMatches (mkRegexp 0 "Holmes") quietBook.
Proof.
  intros f ls Hin Hls. destruct (quietBook_lines f ls Hin Hls) as [->| ->];
    repeat constructor.
Qed.

Example grep_quiet_book_matches :
  fst (fst (grepInEpub background (mkPools [] []) (Readable quietBook) "quiet.epub"
                       (mkRegexp 0 "nothing") 0))
    = Done (mkSlice [mkMatch "nothing to see" "chapter1.txt";
                     mkMatch "nothing here either" "chapter2.xhtml"], None).
Proof. vm_compute. reflexivity. Qed.

Example grep_cancelled :
  fst (fst (grepInEpub (cancelled Canceled) (mkPools [] []) (Readable quietBook) "quiet.epub"
                       (mkRegexp 0 "nothing") 0))
    = Done (nilSlice, Some (ErrContext Canceled)).
Proof. vm_compute. reflexivity. Qed.

Example grep_unreadable :
  fst (fst (grepInEpub background (mkPools [] []) (Unreadable None "no such file")
                       "/non/existent/file.epub" (mkRegexp 0 "test") 0))
    = Done (nilSlice, Some (ErrOpenEpub "/non/existent/file.epub" None "no such file")).
Proof. reflexivity. Qed.

(** The skip policy on the names the specification lists. *)
Example skip_policy :
  map shouldSkipFile ["mimetype"; "META-INF/container.xml"; "cover.xhtml"; "toc.xhtml";
                      "sample_chapter.html"; "ads.xhtml";
                      "content/chapter1.xhtml"; "text/page1.txt"]%string
  = [true; true; true; true; true; true; false; false].
Proof. vm_compute. reflexivity. Qed.

End Extractor.

(* ===================================================================== *)
(** * metadata_extractor.go: the release year *)
(* ===================================================================== *)

Module MetadataExtractor.
Import GoInt Go Types.

(** ** strconv and time (standard library, modelled) *)

Definition isDigitChar (c : ascii) : bool :=
  let n := nat_of_ascii c in (48 <=? n)%nat && (n <=? 57)%nat.

Definition digitValue (c : ascii) : Z := Z.of_nat (nat_of_ascii c) - 48.

(** The number a string of decimal digits denotes; [None] when a byte is not
    a digit. *)
Fixpoint digitsValue (cs : list ascii) (acc : Z) : option Z :=
  match cs with
  | [] => Some acc
  | c :: cs' => if isDigitChar c then digitsValue cs' (acc * 10 + digitValue c) else None
  end.

(** [strconv.Atoi]: an optional sign, at least one digit, nothing else, and a
    value that fits [int]. *)
Definition Atoi (s : string) : option Z :=
  let cs := list_ascii_of_string s in
  let '(neg, ds) := match cs with
                    | "-"%char :: ds => (true, ds)
                    | "+"%char :: ds => (false, ds)
                    | _ => (false, cs)
                    end in
  match ds with
  | [] => None
  | _ :: _ =>
      match digitsValue ds 0 with
      | Some n => let v := if neg then - n else n in
                  if (minInt <=? v) && (v <=? maxInt) then Some v else None
      | None => None
      end
  end.

(** [getnum] of package time: one or two digits, two when [fixed]. *)
Definition getnum (cs : list ascii) (fixed : bool) : option (Z * list ascii) :=
  match cs with
  | c0 :: rest =>
      if isDigitChar c0 then
        match rest with
        | c1 :: rest' =>
            if isDigitChar c1 then Some (digitValue c0 * 10 + digitValue c1, rest')
            else if fixed then None else Some (digitValue c0, rest)
        | [] => if fixed then None else Some (digitValue c0, rest)
        end
      else None
  | [] => None
  end.

(** [skip] for a one-byte literal of the layout. *)
Definition expect (c : ascii) (cs : list ascii) : option (list ascii) :=
  match cs with
  | c' :: rest => if Ascii.eqb c c' then Some rest else None
  | [] => None
  end.

Definition isLeap (year : Z) : bool :=
  (year mod 4 =? 0) && (negb (year mod 100 =? 0) || (year mod 400 =? 0)).

Definition daysIn (month year : Z) : Z :=
  if month =? 2 then (if isLeap year then 29 else 28)
  else if bool_decide (month ∈ [4; 6; 9; 11]) then 30 else 31.

(** The fraction of a second that may follow the seconds: "." or "," and
    digits.  It is skipped. *)
Fixpoint skipDigits (cs : list ascii) : list ascii :=
  match cs with
  | c :: rest => if isDigitChar c then skipDigits rest else cs
  | [] => []
  end.

Definition skipFraction (cs : list ascii) : list ascii :=
  match cs with
  | c0 :: c1 :: rest =>
      if (Ascii.eqb c0 "." || Ascii.eqb c0 ",") && isDigitChar c1
      then skipDigits rest else cs
  | _ => cs
  end.

(** The zone: "Z", or a sign, two digits, ":" and two digits, with an hour of
    at most 24 and a minute of at most 60.  The result is what follows it. *)
Definition parseZone (cs : list ascii) : option (list ascii) :=
  match cs with
  | "Z"%char :: rest => Some rest
  | sign :: h0 :: h1 :: colon :: m0 :: m1 :: rest =>
      if negb (Ascii.eqb colon ":") then None
      else match getnum [h0; h1] true, getnum [m0; m1] true with
           | Some (hr, _), Some (mm, _) =>
               if (24 <? hr) || (60 <? mm) then None
               else if Ascii.eqb sign "+" || Ascii.eqb sign "-" then Some rest else None
           | _, _ => None
           end
  | _ => None
  end.

Definition bindOpt {A B : Type} (o : option A) (k : A -> option B) : option B :=
  match o with
  | Some a => k a
  | None => None
  end.

(** [time.Parse(time.RFC3339, value)] followed by [t.Year()]: the layout is
    "2006-01-02T15:04:05Z07:00".  The year is four digits; month, day, minute
    and second are two digits and the hour one or two, each within its range,
    and the day within its month.  A time that parses carries the zone it was
    written with, so its year is the one written. *)
Definition parseRFC3339Year (value : string) : option Z :=
  let cs := list_ascii_of_string value in
  match cs with
  | y0 :: y1 :: y2 :: y3 :: rest =>
      bindOpt (digitsValue [y0; y1; y2; y3] 0) (fun year =>
      bindOpt (expect "-" rest) (fun rest =>
      bindOpt (getnum rest true) (fun '(month, rest) =>
      if (month <=? 0) || (12 <? month) then None else
      bindOpt (expect "-" rest) (fun rest =>
      bindOpt (getnum rest true) (fun '(day, rest) =>
      bindOpt (expect "T" rest) (fun rest =>
      bindOpt (getnum rest false) (fun '(hour, rest) =>
      if 24 <=? hour then None else
      bindOpt (expect ":" rest) (fun rest =>
      bindOpt (getnum rest true) (fun '(minute, rest) =>
      if 60 <=? minute then None else
      bindOpt (expect ":" rest) (fun rest =>
      bindOpt (getnum rest true) (fun '(second, rest) =>
      if 60 <=? second then None else
      bindOpt (parseZone (skipFraction rest)) (fun rest =>
      match rest with
      | _ :: _ => None
      | [] => if (day <? 1) || (daysIn month year <? day) then None else Some year
      end))))))))))))
  | _ => None
  end.

(** ** The manifest *)

Record opfMeta := mkMeta {
  MetaName : string;
  MetaContent : string
}.

(** The fields of [opfPackageFile.Metadata] that the modelled part of
    [ProcessFile] reads. *)
Record opfPackageFile := mkOpf {
  OpfTitle : string;
  Creator : list string;
  Subject : list string;
  Date : string;
  Meta : list opfMeta
}.

(** [opfData.Metadata.Date[:4]]. *)
Definition firstFour (date : string) : string := String.substring 0 4 date.

(** The block [if opfData.Metadata.Date != ""] applied to a metadata value. *)
Definition setYearReleased (date : string) (metadata : Metadata) : Metadata :=
  let withYear year :=
    mkMetadata (Title metadata) (Authors metadata) (Genres metadata) (Series metadata) year in
  if negb (String.eqb date "") then
    match parseRFC3339Year date with
    | Some year => withYear year
    | None =>
        if (4 <=? String.length date)%nat then
          match Atoi (firstFour date) with
          | Some year => withYear year
          | None => metadata
          end
        else metadata
    end
  else metadata.

(** The loop over [opfData.Metadata.Meta], for the series name. *)
Definition setSeries (metas : list opfMeta) (metadata : Metadata) : Metadata :=
  fold_left (fun md m =>
               if String.eqb (MetaName m) "calibre:series"
               then mkMetadata (Title md) (Authors md) (Genres md) (MetaContent m)
                               (YearReleased md)
               else md)
            metas metadata.

(** [ProcessFile] from the decoded manifest on: title, authors, genres, the
    release year and the series. *)
Definition buildMetadata (opfData : opfPackageFile) : Metadata :=
  let metadata := mkMetadata (OpfTitle opfData) (Creator opfData) (Subject opfData) "" 0 in
  setSeries (Meta opfData) (setYearReleased (Date opfData) metadata).

(** ** The release year *)

Lemma setSeries_year (metas : list opfMeta) (metadata : Metadata) :
  YearReleased (setSeries metas metadata) = YearReleased metadata.
Proof.
  unfold setSeries. revert metadata.
  induction metas as [|m metas IH]; intros metadata; [reflexivity|].
  cbn [fold_left]. rewrite IH. destruct (String.eqb _ _); reflexivity.
Qed.

Lemma buildMetadata_year (opfData : opfPackageFile) :
  YearReleased (buildMetadata opfData)
  = YearReleased (setYearReleased (Date opfData)
                    (mkMetadata (OpfTitle opfData) (Creator opfData) (Subject opfData) "" 0)).
Proof. unfold buildMetadata. apply setSeries_year. Qed.

(** The year of a date that has no timestamp form: the number its first four
    bytes denote, when there are four and they denote one. *)
Definition yearPrefix (date : string) : option Z :=
  if (4 <=? String.length date)%nat then Atoi (firstFour date) else None.

(** The release year that [ProcessFile] reports, as a function of the date. *)
Definition releaseYear (date : string) : Z :=
  YearReleased (buildMetadata (mkOpf "" [] [] date [])).

(** C8: the release year is the year of the date when the date is a full
    timestamp; failing that it is the number denoted by the first four
    characters when the date has at least four and they denote a number; an
    empty date, and a date for which both attempts fail, leave the year 0.
    The timestamp "2023-05-15T10:30:00Z" and the date "20231" both give
    2023.  (Dates are byte strings here; a sign or digit is one byte, so four
    bytes that denote a number are four characters.) *)
Theorem C8_release_year_from_date (opfData : opfPackageFile) :
  (forall year, parseRFC3339Year (Date opfData) = Some year ->
     YearReleased (buildMetadata opfData) = year)
  /\ (forall year, parseRFC3339Year (Date opfData) = None ->
        yearPrefix (Date opfData) = Some year ->
        YearReleased (buildMetadata opfData) = year)
  /\ (parseRFC3339Year (Date opfData) = None -> yearPrefix (Date opfData) = None ->
        YearReleased (buildMetadata opfData) = 0)
  /\ (Date opfData = "" -> YearReleased (buildMetadata opfData) = 0)
  /\ releaseYear "2023-05-15T10:30:00Z" = 2023
  /\ parseRFC3339Year "2023-05-15T10:30:00Z" = Some 2023
  /\ releaseYear "20231" = 2023
  /\ parseRFC3339Year "20231" = None
  /\ releaseYear "" = 0.
Proof.
  assert (Hconcrete : forall date year,
             YearReleased (setYearReleased date (mkMetadata "" [] [] "" 0)) = year ->
             releaseYear date = year).
  { intros date year H. unfold releaseYear. rewrite buildMetadata_year. exact H. }
  rewrite buildMetadata_year. unfold setYearReleased, yearPrefix.
  split; [|split; [|split; [|split; [|split; [|split; [|split; [|split]]]]]]].
  - intros year Hp. destruct (String.eqb_spec (Date opfData) "") as [He|Hne].
    + rewrite He in Hp. discriminate Hp.
    + cbn [negb]. rewrite Hp. reflexivity.
  - intros year Hp Hy. destruct (String.eqb_spec (Date opfData) "") as [He|Hne].
    + rewrite He in Hy. discriminate Hy.
    + cbn [negb]. rewrite Hp.
      destruct (4 <=? String.length (Date opfData))%nat; [|discriminate Hy].
      rewrite Hy. reflexivity.
  - intros Hp Hy. destruct (String.eqb_spec (Date opfData) "") as [He|Hne];
      [reflexivity|].
    cbn [negb]. rewrite Hp.
    destruct (4 <=? String.length (Date opfData))%nat; [|reflexivity].
    rewrite Hy. reflexivity.
  - intros He. rewrite He. reflexivity.
  - apply Hconcrete. vm_compute. reflexivity.
  - vm_compute. reflexivity.
  - apply Hconcrete. vm_compute. reflexivity.
  - vm_compute. reflexivity.
  - apply Hconcrete. vm_compute. reflexivity.
Qed.

Example release_years :
  map releaseYear ["2023-05-15"; "2023"; "May 2023"; "abc"; "2023-02-30T00:00:00Z"]
  = [2023; 2023; 0; 0; 2023].
Proof. vm_compute. reflexivity. Qed.

End MetadataExtractor.

(* ===================================================================== *)
(** * file_search.go *)
(* ===================================================================== *)

Module FileSearch.
Import GoInt Go Types RegexCache Pooled Extractor MetadataExtractor.

(** ** The pattern of a request *)

(** The bytes [regexp.QuoteMeta] escapes. *)
Definition special (c : ascii) : bool :=
  bool_decide (c ∈ ["\"; "."; "+"; "*"; "?"; "("; ")"; "|"; "["; "]"; "{"; "}"; "^"; "$"]%char).

Definition quoteBytes (cs : list ascii) : list ascii :=
  flat_map (fun c => if special c then ["\"%char; c] else [c]) cs.

(** [regexp.QuoteMeta]: a backslash before every special byte. *)
Definition QuoteMeta (s : string) : string :=
  string_of_list_ascii (quoteBytes (list_ascii_of_string s)).



(** The case-insensitivity marker. *)
Definition foldMarker : string := "(?i)".

(** The opening of [Search]: the pattern of the request, or the error for a
    missing sub-specification. *)
Definition buildPattern (request : SearchRequest) : error + string :=
  if IsRegex (Query request) then
    match Regex (Query request) with
    | None => inl ErrRegexRequired
    | Some re => inr (Pattern re)
    end
  else
    match Text (Query request) with
    | None => inl ErrTextRequired
    | Some t =>
        let pattern := QuoteMeta (Value t) in
        inr (if IgnoreCase t then foldMarker +:+ pattern else pattern)
    end.


Section WithCompiler.

Variable syntaxError : string -> option string.

(** [Search] up to [patternCache.get]: the compiled pattern, or the error
    [Search] returns at once. *)
Definition compileRequest (ord : RangeOrder) (request : SearchRequest) (st : State)
  : (error + Regexp) * State :=
  match buildPattern request with
  | inl err => (inl err, st)
  | inr pattern =>
      match get syntaxError ord pattern st with
      | (inl re, st') => (inr re, st')
      | (inr msg, st') => (inl (ErrInvalidPattern pattern msg), st')
      end
  end.

End WithCompiler.

(** ** Escaping *)

Lemma special_backslash : special "\" = true.
Proof. reflexivity. Qed.





(** ** The search over a directory *)

Record fileSearchImpl := mkFileSearch {
  epubDir : string;
  maxThreads : Z;
  extractMetadata : bool
}.

(** [numCPU] is [runtime.NumCPU()]. *)
Definition NewFileSearch (numCPU : Z) (epubDir : string) (maxThreads : Z)
  (extractMetadata : bool) : fileSearchImpl :=
  mkFileSearch epubDir (if maxThreads <=? 0 then numCPU else maxThreads) extractMetadata.

(** One call of the function that [filepath.WalkDir] is given: the path, the
    entry's name and kind, and the error of reaching it. *)
Record DirEntry := mkDirEntry {
  entryPath : string;
  entryName : string;
  entryIsDir : bool;
  entryErr : option string
}.

(** The file system under [epubDir]: the calls [WalkDir] makes as long as the
    function returns [nil], what opening the archive at a path gives, and what
    the metadata extractor finds there: the decoded manifest or an error. *)
Record World := mkWorld {
  walk : list DirEntry;
  archive : string -> epubOnDisk;
  manifest : string -> string + opfPackageFile
}.

(** A [ResultHandler]: its answer to a result, [Some msg] for an error, given
    the results it was called with before. *)
Definition ResultHandler : Type := list SearchResult -> SearchResult -> option string.

(** How an iteration of a worker's loop [for path := range paths] ends. *)
Inductive Verdict :=
| Continue
| Break
| Return (err : option error).

Section WithLibrary.
Context {lib : Library}.

Variable s : fileSearchImpl.
Variable request : SearchRequest.
Variable handler : ResultHandler.
Variable world : World.
Variable patternRegex : Regexp.

(** The test the producer applies to an entry before it sends its path. *)
Definition isCandidate (d : DirEntry) : bool :=
  negb (entryIsDir d) && HasSuffix (ToLower (entryName d)) ".epub" &&
  match Filters request with
  | Some filters =>
      if 0 <? len (FilesIn filters)
      then bool_decide (entryPath d ∈ FilesIn filters) else true
  | None => true
  end.

(** [metaExtractor.ProcessFile(ctx, path)], or the zero value when metadata
    is not extracted. *)
Definition metadataFor (path : string) : error + Metadata :=
  if extractMetadata s then
    match manifest world path with
    | inl msg => inl (ErrMetadata msg)
    | inr opfData => inr (buildMetadata opfData)
    end
  else inr zeroMetadata.

(** [request.Filters != nil && s.extractMetadata] and the filters reject. *)
Definition rejectedByFilters (metadata : Metadata) : bool :=
  match Filters request with
  | Some filters => extractMetadata s && negb (matchesMetadataFilters metadata filters)
  | None => false
  end.

(** The part of the loop body after [grepInEpub] returned [matches] and no
    error: the verdict and the results the handler has been called with. *)
Definition deliver (path : string) (matches : slice Match) (delivered : list SearchResult)
  : Verdict * list SearchResult :=
  if 0 <? len (elems matches) then
    match metadataFor path with
    | inl _ => (Continue, delivered)
    | inr metadata =>
        if rejectedByFilters metadata then (Continue, delivered)
        else
          let result := mkResult path metadata matches in
          match handler delivered result with
          | Some msg => (Return (Some (ErrHandler msg)), delivered ++ [result])
          | None => (Continue, delivered ++ [result])
          end
    end
  else (Continue, delivered).

(** One iteration of a worker's loop, for the path it received. *)
Definition workerBody (ctx : Context) (pools : Pools) (delivered : list SearchResult)
  (path : string) : exec Verdict * Context * Pools * list SearchResult :=
  match poll ctx with
  | (Some e, ctx) =>
      (Done (Return (if isCanceled (ErrContext e) then None else Some (ErrContext e))),
       ctx, pools, delivered)
  | (None, ctx) =>
      match grepInEpub ctx pools (archive world path) path patternRegex (Context_ request) with
      | (Done (matches, Some err), ctx, pools) =>
          (Done (if isCanceled err then Break else Continue), ctx, pools, delivered)
      | (Done (matches, None), ctx, pools) =>
          let '(verdict, delivered) := deliver path matches delivered in
          (Done verdict, ctx, pools, delivered)
      | (Panicked, ctx, pools) => (Panicked, ctx, pools, delivered)
      | (OutOfFuel, ctx, pools) => (OutOfFuel, ctx, pools, delivered)
      end
  end.

(** *** The pool of goroutines

    The producer walks the directory and offers every candidate path on the
    unbuffered channel; [maxThreads] workers receive from it.  All of them
    run under the pool's context, which is done when the caller's context is
    or, the pool being one that cancels on error, when one of them has
    returned an error or panicked. *)

Inductive Producer :=
| Walking (todo : list DirEntry)
| Sending (path : string) (todo : list DirEntry)
| Finished.

Inductive Worker :=
| Receiving
| Holding (path : string)
| Stopped.

Record Pipeline := mkPipeline {
  ctxDone : option CtxErr;
  producer : Producer;
  workers : list Worker;
  errs : list error;
  delivered : list SearchResult;
  pools : Pools;
  panicked : bool
}.

Definition initial (parent : option CtxErr) (pools0 : Pools) : Pipeline :=
  mkPipeline parent (Walking (walk world))
             (repeat Receiving (Z.to_nat (maxThreads s))) [] [] pools0 false.

(** [p.cancel()]. *)
Definition cancel (done : option CtxErr) : option CtxErr :=
  match done with
  | None => Some Canceled
  | Some e => Some e
  end.

(** The context a goroutine polls during one step, given whether the pool's
    context is done when the step begins: a context that is done stays so;
    one that is not may become done after any number of polls. *)
Definition observes (done : option CtxErr) (ctx : Context) : Prop :=
  match done with
  | Some e => ctx = cancelled e
  | None => True
  end.

(** Whether the context is done after a step that left the polled context
    as [ctx]. *)
Definition doneAfter (done : option CtxErr) (ctx : Context) : option CtxErr :=
  match done with
  | Some e => Some e
  | None => match remaining ctx with
            | Some O => Some (cause ctx)
            | _ => None
            end
  end.

(** What a worker does after an iteration, and the error it returns. *)
Definition afterVerdict (v : Verdict) : Worker :=
  match v with
  | Continue => Receiving
  | Break | Return _ => Stopped
  end.

Definition verdictErr (v : Verdict) : list error :=
  match v with
  | Return (Some err) => [err]
  | _ => []
  end.

Definition cancelIf (b : bool) (done : option CtxErr) : option CtxErr :=
  if b then cancel done else done.

Inductive step : Pipeline -> Pipeline -> Prop :=
| step_parent_done st e :
    ctxDone st = None ->
    step st (mkPipeline (Some e) (producer st) (workers st) (errs st) (delivered st)
                        (pools st) (panicked st))
| step_walk_error st d todo msg :
    producer st = Walking (d :: todo) -> entryErr d = Some msg ->
    step st (mkPipeline (cancel (ctxDone st)) Finished (workers st)
                        (errs st ++ [ErrWalk msg]) (delivered st) (pools st) (panicked st))
| step_walk_skip st d todo :
    producer st = Walking (d :: todo) -> entryErr d = None -> isCandidate d = false ->
    step st (mkPipeline (ctxDone st) (Walking todo) (workers st) (errs st) (delivered st)
                        (pools st) (panicked st))
| step_walk_offer st d todo :
    producer st = Walking (d :: todo) -> entryErr d = None -> isCandidate d = true ->
    step st (mkPipeline (ctxDone st) (Sending (entryPath d) todo) (workers st) (errs st)
                        (delivered st) (pools st) (panicked st))
| step_walk_end st :
    producer st = Walking [] ->
    step st (mkPipeline (ctxDone st) Finished (workers st) (errs st) (delivered st)
                        (pools st) (panicked st))
| step_send st path todo i :
    producer st = Sending path todo -> workers st !! i = Some Receiving ->
    step st (mkPipeline (ctxDone st) (Walking todo) (<[i := Holding path]> (workers st))
                        (errs st) (delivered st) (pools st) (panicked st))
| step_send_done st path todo e :
    producer st = Sending path todo -> ctxDone st = Some e ->
    step st (mkPipeline (ctxDone st) Finished (workers st) (errs st ++ [ErrContext e])
                        (delivered st) (pools st) (panicked st))
| step_closed st i :
    producer st = Finished -> workers st !! i = Some Receiving ->
    step st (mkPipeline (ctxDone st) (producer st) (<[i := Stopped]> (workers st))
                        (errs st) (delivered st) (pools st) (panicked st))
| step_work st i path ctx v ctx' pools' delivered' :
    workers st !! i = Some (Holding path) -> observes (ctxDone st) ctx ->
    workerBody ctx (pools st) (delivered st) path = (Done v, ctx', pools', delivered') ->
    step st (mkPipeline (cancelIf (bool_decide (verdictErr v <> []))
                                  (doneAfter (ctxDone st) ctx'))
                        (producer st) (<[i := afterVerdict v]> (workers st))
                        (errs st ++ verdictErr v) delivered' pools' (panicked st))
| step_work_panics st i path ctx out ctx' pools' delivered' :
    workers st !! i = Some (Holding path) -> observes (ctxDone st) ctx ->
    workerBody ctx (pools st) (delivered st) path = (out, ctx', pools', delivered') ->
    (forall v, out <> Done v) ->
    step st (mkPipeline (cancel (ctxDone st)) (producer st) (<[i := Stopped]> (workers st))
                        (errs st) delivered' pools' true).

(** Zero or more steps. *)
Inductive steps : Pipeline -> Pipeline -> Prop :=
| steps_refl st : steps st st
| steps_more st1 st2 st3 : steps st1 st2 -> step st2 st3 -> steps st1 st3.

(** Every goroutine has returned: [p.Wait()] returns. *)
Definition finished (st : Pipeline) : Prop :=
  producer st = Finished /\ Forall (fun w => w = Stopped) (workers st).

End WithLibrary.

(** How a call of [Search] ends: [p.Wait()] returns the errors the
    goroutines returned, joined ([nil] when there is none), or raises again
    the panic of one of them. *)
Inductive Outcome :=
| Returns (err : list error)
| Panics.

Definition outcomeOf (st : Pipeline) : Outcome :=
  if panicked st then Panics else Returns (errs st).

(** [Search]: a way the call may end, with the results the handler has been
    called with.  [parent] tells whether the caller's context is done when
    the call begins. *)
Inductive Search {lib : Library} (syntaxError : string -> option string)
  (s : fileSearchImpl) (parent : option CtxErr) (request : SearchRequest)
  (handler : ResultHandler) (world : World) (ord : RangeOrder) (cacheState : State)
  (pools0 : Pools) : Outcome -> list SearchResult -> Prop :=
| Search_rejected err cacheState' :
    compileRequest syntaxError ord request cacheState = (inl err, cacheState') ->
    Search syntaxError s parent request handler world ord cacheState pools0
           (Returns [err]) []
| Search_waited re cacheState' final :
    compileRequest syntaxError ord request cacheState = (inr re, cacheState') ->
    steps s request handler world re (initial s world parent pools0) final ->
    finished final ->
    Search syntaxError s parent request handler world ord cacheState pools0
           (outcomeOf final) (delivered final).


(** ** Properties of the pipeline *)

Section Pipelines.
Context {lib : Library}.

Variable s : fileSearchImpl.
Variable request : SearchRequest.
Variable handler : ResultHandler.
Variable world : World.
Variable patternRegex : Regexp.

#[local] Abbreviation step' := (step s request handler world patternRegex).
#[local] Abbreviation steps' := (steps s request handler world patternRegex).
#[local] Abbreviation workerBody' := (workerBody s request handler world patternRegex).

Lemma steps_trans (a b c : Pipeline) : steps' a b -> steps' b c -> steps' a c.
Proof.
  intros Hab Hbc. induction Hbc as [|b c d Hbc IH Hcd]; [exact Hab|].
  eapply steps_more; [apply IH; exact Hab | exact Hcd].
Qed.

Lemma steps_one (a b : Pipeline) : step' a b -> steps' a b.
Proof. intros H. eapply steps_more; [apply steps_refl | exact H]. Qed.


(** *** The iteration of a worker *)





(** *** Every run ends *)







(** *** A context that is done when the call begins *)

(** An entry that makes the producer return an error when the context is
    done and no worker receives: one the walk could not reach, or a
    candidate. *)
Definition isTrouble (d : DirEntry) : bool :=
  match entryErr d with
  | Some _ => true
  | None => isCandidate request d
  end.

Fixpoint troubles (todo : list DirEntry) : nat :=
  match todo with
  | [] => 0
  | d :: rest => (if isTrouble d then 1 else 0) + troubles rest
  end.

Definition pending (p : Producer) : nat :=
  match p with
  | Walking todo => troubles todo
  | Sending _ todo => S (troubles todo)
  | Finished => 0
  end.















End Pipelines.

(** ** What [Search] returns *)









(** C9: when [grepInEpub] returns at least one match for a path and metadata
    is not extracted, the handler is called with the path, the zero metadata
    and the matches, whatever the filters of the request are; an iteration
    that has matches and does not call the handler is one with metadata
    extraction on, in which the extraction failed or the filters rejected
    the metadata. *)
Theorem C9_filters_ignored_without_metadata {lib : Library}
  (s : fileSearchImpl) (request : SearchRequest) (handler : ResultHandler) (world : World)
  (re : Regexp) (ctx : Context) (pools : Pools) (dl : list SearchResult) (path : string)
  (ctx1 ctx2 : Context) (matches : slice Match) (pools2 : Pools) :
  poll ctx = (None, ctx1) ->
  grepInEpub ctx1 pools (archive world path) path re (Context_ request)
    = (Done (matches, None), ctx2, pools2) ->
  0 < len (elems matches) ->
  (extractMetadata s = false ->
   workerBody s request handler world re ctx pools dl path
   = (Done (match handler dl (mkResult path zeroMetadata matches) with
            | Some msg => Return (Some (ErrHandler msg))
            | None => Continue
            end),
      ctx2, pools2, dl ++ [mkResult path zeroMetadata matches])) /\
  (snd (workerBody s request handler world re ctx pools dl path) = dl ->
   extractMetadata s = true /\
   ((exists msg, manifest world path = inl msg) \/
    (exists opfData filters,
        manifest world path = inr opfData /\ Filters request = Some filters /\
        matchesMetadataFilters (buildMetadata opfData) filters = false))).
Proof.
  intros Hpoll Hgrep Hlen. unfold workerBody. rewrite Hpoll, Hgrep.
  unfold deliver, metadataFor, rejectedByFilters.
  destruct (Z.ltb_spec 0 (len (elems matches))) as [_|Hle]; [|lia].
  split.
  - intros ->. destruct (Filters request); cbn [andb];
      destruct (handler dl _); reflexivity.
  - assert (Hsnoc : forall r : SearchResult, dl ++ [r] <> dl).
    { intros r H. apply (f_equal (@length _)) in H. rewrite length_app in H.
      cbn in H. lia. }
    destruct (extractMetadata s).
    + destruct (manifest world path) as [msg|opfData]; [intros _; split; eauto|].
      destruct (Filters request) as [filters|]; cbn [andb].
      * destruct (matchesMetadataFilters (buildMetadata opfData) filters) eqn:Hf;
          cbn [negb].
        -- destruct (handler dl _); cbn [snd]; intros H; destruct (Hsnoc _ H).
        -- intros _. split; [reflexivity|]. right. eauto.
      * destruct (handler dl _); cbn [snd]; intros H; destruct (Hsnoc _ H).
    + destruct (Filters request); cbn [andb];
        destruct (handler dl _); cbn [snd]; intros H; destruct (Hsnoc _ H).
Qed.

(** ** A shelf of two books *)

Import AsciiLibrary.

Definition holmesBook : list zipFile :=
  [mkZipFile "mimetype" false (Some (Bufio.NewReader "application/epub+zip"));
   mkZipFile "chapter1.txt" false (Some (Bufio.NewReader "Sherlock Holmes was here"))].

Definition scarlet : opfPackageFile :=
  mkOpf "A Study in Scarlet" ["Arthur Conan Doyle"] ["Mystery"] "1887"
        [mkMeta "calibre:series" "Sherlock Holmes"].

(** A directory with two archives, both holding [holmesBook]. *)
Definition shelf : World :=
  mkWorld [mkDirEntry "/books" "books" true None;
           mkDirEntry "/books/a.epub" "a.epub" false None;
           mkDirEntry "/books/b.EPUB" "b.EPUB" false None]
          (fun _ => Readable holmesBook)
          (fun _ => inr scarlet).

(** A directory without archives. *)
Definition bareShelf : World :=
  mkWorld [mkDirEntry "/books" "books" true None;
           mkDirEntry "/books/notes.txt" "notes.txt" false None]
          (fun _ => Unreadable None "no such file")
          (fun _ => inl "no such file").

(** A text query for "Holmes", with a filter on the author. *)
Definition holmesBy (author : string) : SearchRequest :=
  mkRequest (mkQuery None false (Some (mkTextSpec "Holmes" false)))
            (Some (mkFilters author "" "" [])) 0.

Definition holmes : Regexp := mkRegexp 0 "Holmes".

Definition holmesMatches : slice Match :=
  mkSlice [mkMatch "Sherlock Holmes was here" "chapter1.txt"].

Definition accept : ResultHandler := fun _ _ => None.

Definition oneWorker (extractMetadata : bool) : fileSearchImpl :=
  mkFileSearch "/books" 1 extractMetadata.

Definition emptyPools : Pools := mkPools [] [].

Definition grepA : exec (slice Match * option error) * Context * Pools :=
  grepInEpub background emptyPools (Readable holmesBook) "/books/a.epub" holmes 0.

Lemma grepA_result : grepA = (Done (holmesMatches, None), snd (fst grepA), snd grepA).
Proof.
  assert (H : fst (fst grepA) = Done (holmesMatches, None)) by (vm_compute; reflexivity).
  destruct grepA as [[out c] p]. cbn [fst snd] in *. rewrite H. reflexivity.
Qed.

Lemma holmesMatches_len : 0 < len (elems holmesMatches).
Proof. reflexivity. Qed.

Lemma C9_filters_ignored_without_metadata_witness :
  snd (workerBody (oneWorker false) (holmesBy "Nobody") accept shelf holmes
                  background emptyPools [] "/books/a.epub")
  = [mkResult "/books/a.epub" zeroMetadata holmesMatches].
Proof.
  pose proof (C9_filters_ignored_without_metadata
                (oneWorker false) (holmesBy "Nobody") accept shelf holmes
                background emptyPools [] "/books/a.epub" background (snd (fst grepA))
                holmesMatches (snd grepA) eq_refl grepA_result holmesMatches_len) as [H _].
  rewrite (H eq_refl). reflexivity.
Defined.

(** With metadata extraction on, the same filter rejects the book, and a
    filter that names its author lets it through with its metadata. *)
Example filters_apply_with_metadata :
  snd (workerBody (oneWorker true) (holmesBy "Nobody") accept shelf holmes
                  background emptyPools [] "/books/a.epub") = []
  /\ snd (workerBody (oneWorker true) (holmesBy "arthur conan doyle") accept shelf holmes
                     background emptyPools [] "/books/a.epub")
     = [mkResult "/books/a.epub"
                 (mkMetadata "A Study in Scarlet" ["Arthur Conan Doyle"] ["Mystery"]
                             "Sherlock Holmes" 1887)
                 holmesMatches].
Proof. split; vm_compute; reflexivity. Qed.

Example patterns_of_text_requests :
  buildPattern (holmesBy "") = inr "Holmes"
  /\ buildPattern (mkRequest (mkQuery None false (Some (mkTextSpec "a.b (c)" true))) None 0)
     = inr "(?i)a\.b \(c\)"
  /\ buildPattern (mkRequest (mkQuery None false None) None 0) = inl ErrTextRequired
  /\ buildPattern (mkRequest (mkQuery None true None) None 0) = inl ErrRegexRequired
  /\ buildPattern (mkRequest (mkQuery (Some (mkRegexSpec "H.lmes")) true None) None 0)
     = inr "H.lmes".
Proof. repeat split. Qed.

(** The pattern cache as [Search] finds it, and a compiler that rejects an
    expression with an unbalanced parenthesis. *)
Definition freshCache : State := (0%nat, newRegexCache 100).

Definition cancelledSearch (world : World) (request : SearchRequest)
  : Outcome -> list SearchResult -> Prop :=
  Search onlyParenFails (oneWorker false) (Some Canceled) request accept world idOrder
         freshCache emptyPools.

Lemma holmes_compiles :
  fst (compileRequest onlyParenFails idOrder (holmesBy "") freshCache) = inr holmes.
Proof. vm_compute. reflexivity. Qed.

Lemma steps_first {lib : Library} (s : fileSearchImpl) (request : SearchRequest)
  (handler : ResultHandler) (world : World) (re : Regexp) (a b c : Pipeline) :
  step s request handler world re a b -> steps s request handler world re b c ->
  steps s request handler world re a c.
Proof. intros Hab Hbc. eapply steps_trans; [apply steps_one; exact Hab | exact Hbc]. Qed.


(** The calls the amended claim speaks of exist: a directory without
    archives, searched under a cancelled context, gives [nil]; a request
    without its text specification gives the error of an invalid query. *)
Example cancelled_search_of_bare_shelf :
  cancelledSearch bareShelf (holmesBy "") (Returns []) []
  /\ troubles (holmesBy "") (walk bareShelf) = 0%nat
  /\ cancelledSearch shelf (mkRequest (mkQuery None false None) None 0)
                     (Returns [ErrTextRequired]) [].
Proof.
  pose proof holmes_compiles as Hc.
  destruct (compileRequest onlyParenFails idOrder (holmesBy "") freshCache)
    as [r st'] eqn:Hcompile.
  cbn [fst] in Hc. subst r. unfold cancelledSearch. split; [|split].
  - apply (Search_waited onlyParenFails (oneWorker false) (Some Canceled) (holmesBy "") accept
             bareShelf idOrder freshCache emptyPools holmes st'
             (mkPipeline (Some Canceled) Finished [Stopped] [] [] emptyPools false));
      [exact Hcompile| |].
    + eapply steps_first.
      { eapply step_walk_skip; [reflexivity | reflexivity | vm_compute; reflexivity]. }
      eapply steps_first.
      { eapply step_walk_skip; [reflexivity | reflexivity | vm_compute; reflexivity]. }
      eapply steps_first.
      { eapply step_walk_end; reflexivity. }
      eapply steps_first.
      { eapply (step_closed _ _ _ _ _ _ 0%nat); reflexivity. }
      apply steps_refl.
    + split; [reflexivity | repeat constructor].
  - vm_compute. reflexivity.
  - eapply Search_rejected. reflexivity.
Qed.

End FileSearch.
